(** * AI Meme Generator: the caption renderer and the caption fetch of app.py

    A shallow embedding of [draw_text_on_image], of the call site that feeds
    it a copy of the uploaded picture, and of [get_ai_caption], with the
    properties the specification states about them.

    Conventions of the embedding.
    - A Python [str] is a Rocq [string]; captions are taken to be ASCII
      text, on which [str.upper] and [str.strip] act as written below.
    - A Python [int] is a [Z].  [a / b] on ints is true division and gives
      a float; the program keeps one such quotient, a difference of pixel
      counts halved, which a float holds exactly, so it is a [Q].
      [int(a / b)] truncates towards zero.
    - A PIL image is an object on a heap of images, named by a location:
      drawing writes into the object, [copy] allocates a new one.
    - Pillow (fonts, measuring, rasterising), Streamlit (messages on the
      page) and requests (the HTTP exchange) are not part of app.py.  Pillow
      is an interface ([Pillow]); Streamlit is a log of messages; the HTTP
      exchange is an outcome handed to the function. *)

From Stdlib Require Import ZArith QArith Qabs String Ascii List Lia.
From stdpp Require Import base option list gmap strings.

Local Open Scope string_scope.
Local Open Scope list_scope.
Local Open Scope Z_scope.

(** ** Python strings *)

Module PyStr.

(** [if s:] on a string: the empty string is falsy, any other is truthy. *)
Definition truthy (s : string) : bool :=
  match s with
  | EmptyString => false
  | String _ _ => true
  end.

Definition is_lower (c : ascii) : bool :=
  (97 <=? nat_of_ascii c)%nat && (nat_of_ascii c <=? 122)%nat.

Definition upper_char (c : ascii) : ascii :=
  if is_lower c then ascii_of_nat (nat_of_ascii c - 32) else c.

(** [s.upper()] *)
Fixpoint upper (s : string) : string :=
  match s with
  | EmptyString => EmptyString
  | String c rest => String (upper_char c) (upper rest)
  end.

(** [c.isspace()] on ASCII: tab, line feed, vertical tab, form feed,
    carriage return, the four separators 28..31, and the space. *)
Definition is_space (c : ascii) : bool :=
  let n := nat_of_ascii c in
  ((9 <=? n)%nat && (n <=? 13)%nat) || ((28 <=? n)%nat && (n <=? 32)%nat).

Fixpoint lstrip (s : string) : string :=
  match s with
  | EmptyString => EmptyString
  | String c rest => if is_space c then lstrip rest else s
  end.

Fixpoint rstrip (s : string) : string :=
  match s with
  | EmptyString => EmptyString
  | String c rest =>
      match rstrip rest with
      | EmptyString => if is_space c then EmptyString else String c EmptyString
      | r => String c r
      end
  end.

(** [s.strip()] *)
Definition strip (s : string) : string := rstrip (lstrip s).

Fixpoint all_chars (p : ascii -> bool) (s : string) : bool :=
  match s with
  | EmptyString => true
  | String c rest => p c && all_chars p rest
  end.

Fixpoint any_char (p : ascii -> bool) (s : string) : bool :=
  match s with
  | EmptyString => false
  | String c rest => p c || any_char p rest
  end.

(** A caption made of white space only (the empty caption included). *)
Definition blank (s : string) : bool := all_chars is_space s.

End PyStr.

(** ** Python numbers *)

(** [a / b] on two ints. *)
Definition truediv (a b : Z) : Q := (inject_Z a / inject_Z b)%Q.

(** [int(a / b)] on two ints. *)
Definition int_truediv (a b : Z) : Z := Z.quot a b.

(** ** Images and the image heap *)

(** An RGB pixel (the page converts every upload to mode RGB). *)
Definition pixel : Type := Z * Z * Z.

(** A PIL image: [im_size] is [image.size], a pair (width, height);
    [im_data] is the pixel buffer, row after row. *)
Record Image := { im_size : Z * Z; im_data : list pixel }.

(** The two colour names app.py passes as [fill]. *)
Inductive fill := black | white.

Definition ink (f : fill) : pixel :=
  match f with
  | black => (0, 0, 0)
  | white => (255, 255, 255)
  end.

(** A reference to an image object. *)
Definition loc : Type := positive.

(** What Streamlit is asked to show on the page. *)
Inductive Message :=
| Warning (text : string)
| Error (text : string).

(** ** Pillow, as far as app.py uses it

    - [truetype name size] is [ImageFont.truetype(name, size)]: [None]
      stands for the IOError it raises when it cannot load the file.
    - [load_default] is [ImageFont.load_default()].
    - [textbbox font text] is [draw.textbbox((0, 0), text, font=font)], the
      4-tuple (left, top, right, bottom).
    - [getmask font text x y] lists the pixels (column, row, coverage) that
      [draw.text((x, y), text, font=font, ...)] inks.
    - [blend coverage old new] is the colour a pixel takes. *)
Class Pillow := {
  Font : Type;
  truetype : string -> Z -> option Font;
  load_default : Font;
  textbbox : Font -> string -> Z * Z * Z * Z;
  getmask : Font -> string -> Q -> Z -> list (Z * Z * Z);
  blend : Z -> pixel -> pixel -> pixel
}.

Section Drawing.
Context `{Pillow}.

Definition in_bounds (im : Image) (x y : Z) : bool :=
  (0 <=? x) && (x <? fst (im_size im)) && (0 <=? y) && (y <? snd (im_size im)).

Definition offset (im : Image) (x y : Z) : nat :=
  Z.to_nat (y * fst (im_size im) + x).

(** One inked pixel: positions outside the picture are clipped. *)
Definition paint_pixel (c : pixel) (im : Image) (p : Z * Z * Z) : Image :=
  let '(x, y, coverage) := p in
  if in_bounds im x y then
    match im_data im !! offset im x y with
    | Some old =>
        {| im_size := im_size im;
           im_data := <[offset im x y := blend coverage old c]> (im_data im) |}
    | None => im
    end
  else im.

(** A call [draw.text((x, y), text, font=font, fill=fill)]. *)
Record TextCall := {
  tc_x : Q;
  tc_y : Z;
  tc_text : string;
  tc_font : Font;
  tc_fill : fill
}.

(** The effect of one text call on the pixels of its target. *)
Definition render_text (c : TextCall) (im : Image) : Image :=
  foldl (paint_pixel (ink (tc_fill c))) im
        (getmask (tc_font c) (tc_text c) (tc_x c) (tc_y c)).

Definition render_calls (cs : list TextCall) (im : Image) : Image :=
  foldl (fun acc c => render_text c acc) im cs.

(** The state a run of the page threads: the image objects, the text
    calls made so far (kept for the statements, the program never reads
    them) and the messages shown. *)
Record World := {
  images : gmap loc Image;
  drawn : list TextCall;
  page : list Message
}.

(** A computation: [None] is a reference to no object, which a running
    Python program cannot hold. *)
Definition M (A : Type) : Type := World -> option (A * World).

Definition ret {A} (a : A) : M A := fun w => Some (a, w).

Definition bind {A B} (m : M A) (k : A -> M B) : M B :=
  fun w =>
    match m w with
    | Some (a, w') => k a w'
    | None => None
    end.

(** [ImageDraw.Draw(image)]: the drawing context holds its target. *)
Definition ImageDraw_Draw (image : loc) : M loc :=
  fun w =>
    match images w !! image with
    | Some _ => Some (image, w)
    | None => None
    end.

(** [image.size] *)
Definition image_size (image : loc) : M (Z * Z) :=
  fun w =>
    match images w !! image with
    | Some im => Some (im_size im, w)
    | None => None
    end.

(** [draw.text((x, y), text, font=font, fill=fill)]: writes into the
    target of [draw]. *)
Definition draw_text (draw : loc) (x : Q) (y : Z) (text : string)
    (font : Font) (f : fill) : M unit :=
  fun w =>
    let c := {| tc_x := x; tc_y := y; tc_text := text;
                tc_font := font; tc_fill := f |} in
    match images w !! draw with
    | Some im =>
        Some (tt, {| images := <[draw := render_text c im]> (images w);
                     drawn := drawn w ++ [c];
                     page := page w |})
    | None => None
    end.

(** [image.copy()]: a new object with the same size and pixels. *)
Definition image_copy (image : loc) : M loc :=
  fun w =>
    match images w !! image with
    | Some im =>
        let l := fresh (dom (images w)) in
        Some (l, {| images := <[l := im]> (images w);
                    drawn := drawn w;
                    page := page w |})
    | None => None
    end.

(** [st.warning(text)] *)
Definition st_warning (text : string) : M unit :=
  fun w => Some (tt, {| images := images w; drawn := drawn w;
                        page := page w ++ [Warning text] |}).

End Drawing.

Global Instance M_ret `{Pillow} : MRet M := fun A a => ret a.
Global Instance M_bind `{Pillow} : MBind M := fun A B k m => bind m k.

(** ** The renderer *)

Section Renderer.
Context `{Pillow}.

(** The closure [draw_text_with_outline] of [draw_text_on_image]; [draw]
    and [font] are the variables it captures. *)
Definition draw_text_with_outline (draw : loc) (font : Font)
    (text : string) (x : Q) (y : Z) : M unit :=
  (* Outline *)
  draw_text draw (x - 2)%Q (y - 2) text font black;;
  draw_text draw (x + 2)%Q (y - 2) text font black;;
  draw_text draw (x - 2)%Q (y + 2) text font black;;
  draw_text draw (x + 2)%Q (y + 2) text font black;;
  (* Fill *)
  draw_text draw x y text font white.

Definition font_warning : string :=
  "Impact font not found. Using default font. For best results, install the 'Impact' font on your system.".

Definition draw_text_on_image (image : loc) (top_text bottom_text : string)
    : M loc :=
  draw ← ImageDraw_Draw image;
  '(width, height) ← image_size image;
  let font_size := int_truediv width 10 in
  font ← match truetype "impact.ttf" font_size with
         | Some f => mret f
         | None => st_warning font_warning;; mret load_default
         end;
  (* Top text *)
  (if PyStr.truthy top_text then
     let top_text := PyStr.upper top_text in
     let '(l, t, r, b) := textbbox font top_text in
     let top_text_width := r - l in
     let top_text_height := b - t in
     let x := truediv (width - top_text_width) 2 in
     let y := 10 in
     draw_text_with_outline draw font top_text x y
   else mret tt);;
  (* Bottom text *)
  (if PyStr.truthy bottom_text then
     let bottom_text := PyStr.upper bottom_text in
     let '(l, t, r, b) := textbbox font bottom_text in
     let bottom_text_width := r - l in
     let bottom_text_height := b - t in
     let x := truediv (width - bottom_text_width) 2 in
     let y := height - bottom_text_height - 10 in
     draw_text_with_outline draw font bottom_text x y
   else mret tt);;
  mret image.

(** The call site of the page (the block under "Create Your Meme"): the
    renderer is given [image.copy()], and only when a caption is set. *)
Definition make_meme (image : loc) (top_text bottom_text : string)
    : M (option loc) :=
  if PyStr.truthy top_text || PyStr.truthy bottom_text then
    copy ← image_copy image;
    meme_image ← draw_text_on_image copy top_text bottom_text;
    mret (Some meme_image)
  else mret None.

End Renderer.

(** ** What a run of the renderer amounts to

    The text calls of a run, written as a list, and the lemma that a run
    makes exactly these calls on its argument. *)

Section Calls.
Context `{Pillow}.

Definition text_width (font : Font) (text : string) : Z :=
  let '(l, _, r, _) := textbbox font text in r - l.

Definition text_height (font : Font) (text : string) : Z :=
  let '(_, t, _, b) := textbbox font text in b - t.

Definition chosen_font (width : Z) : Font :=
  match truetype "impact.ttf" (int_truediv width 10) with
  | Some f => f
  | None => load_default
  end.

Definition font_messages (width : Z) : list Message :=
  match truetype "impact.ttf" (int_truediv width 10) with
  | Some _ => []
  | None => [Warning font_warning]
  end.

Definition call (x : Q) (y : Z) (text : string) (font : Font) (f : fill)
    : TextCall :=
  {| tc_x := x; tc_y := y; tc_text := text; tc_font := font; tc_fill := f |}.

Definition outline_calls (font : Font) (text : string) (x : Q) (y : Z)
    : list TextCall :=
  [ call (x - 2)%Q (y - 2) text font black;
    call (x + 2)%Q (y - 2) text font black;
    call (x - 2)%Q (y + 2) text font black;
    call (x + 2)%Q (y + 2) text font black;
    call x y text font white ].

Definition top_x (font : Font) (width : Z) (text : string) : Q :=
  truediv (width - text_width font text) 2.

Definition bottom_y (font : Font) (height : Z) (text : string) : Z :=
  height - text_height font text - 10.

Definition top_calls (font : Font) (width : Z) (top_text : string)
    : list TextCall :=
  if PyStr.truthy top_text then
    outline_calls font (PyStr.upper top_text)
      (top_x font width (PyStr.upper top_text)) 10
  else [].

Definition bottom_calls (font : Font) (width height : Z)
    (bottom_text : string) : list TextCall :=
  if PyStr.truthy bottom_text then
    outline_calls font (PyStr.upper bottom_text)
      (top_x font width (PyStr.upper bottom_text))
      (bottom_y font height (PyStr.upper bottom_text))
  else [].

Definition meme_calls (im : Image) (top_text bottom_text : string)
    : list TextCall :=
  let '(width, height) := im_size im in
  top_calls (chosen_font width) width top_text
    ++ bottom_calls (chosen_font width) width height bottom_text.

(** The world after the calls [cs] were made on the object at [l], which
    held [im], and the messages [ms] were shown. *)
Definition after (w : World) (l : loc) (im : Image) (cs : list TextCall)
    (ms : list Message) : World :=
  {| images := <[l := render_calls cs im]> (images w);
     drawn := drawn w ++ cs;
     page := page w ++ ms |}.

End Calls.

(** ** A concrete host

    A machine on which impact.ttf is not installed, so that every render
    falls back to the built-in font.  The built-in font is taken to be a
    fixed-cell bitmap font, 6 by 11 pixels a character, which inks the
    corner of the cell of every character that is not white space. *)

Module Host.

Inductive font := builtin.

Definition bbox (text : string) : Z * Z * Z * Z :=
  (0, 0, 6 * Z.of_nat (String.length text), 11).

Fixpoint cells (text : string) (x y : Z) : list (Z * Z * Z) :=
  match text with
  | EmptyString => []
  | String c rest =>
      (if PyStr.is_space c then [] else [(x, y, 255)]) ++ cells rest (x + 6) y
  end.

(** [int(x)] on a float. *)
Definition int (x : Q) : Z := Z.quot (Qnum x) (Zpos (Qden x)).

Definition mix (coverage : Z) (old new : pixel) : pixel :=
  if coverage =? 0 then old else new.

#[export] Instance pillow : Pillow := {|
  Font := font;
  truetype := fun _ _ => None;
  load_default := builtin;
  textbbox := fun _ text => bbox text;
  getmask := fun _ text x y => cells text (int x) y;
  blend := mix
|}.

Definition white_picture (width height : Z) : Image :=
  {| im_size := (width, height);
     im_data := repeat (255, 255, 255) (Z.to_nat (width * height)) |}.

(** The page after the upload of a white picture, 24 wide and 32 high. *)
Definition picture : Image := white_picture 24 32.

Definition uploaded : loc := 1%positive.

Definition world : World :=
  {| images := {[ uploaded := picture ]};
     drawn := [];
     page := [] |}.

End Host.

(** ** A second host, with Impact installed

    [truetype] finds impact.ttf at any positive size; at size [s] a
    character is [s / 2] wide, and the ink of a line starts [s / 5] under
    the anchor and ends [s] under it. *)

Module Studio.

Inductive font := impact (size : Z) | builtin.

Definition advance (f : font) : Z :=
  match f with
  | impact s => s / 2
  | builtin => 6
  end.

Definition bbox (f : font) (text : string) : Z * Z * Z * Z :=
  match f with
  | impact s => (0, s / 5, advance f * Z.of_nat (String.length text), s)
  | builtin => (0, 0, 6 * Z.of_nat (String.length text), 11)
  end.

Fixpoint cells (step : Z) (text : string) (x y : Z) : list (Z * Z * Z) :=
  match text with
  | EmptyString => []
  | String c rest =>
      (if PyStr.is_space c then [] else [(x, y, 255)])
        ++ cells step rest (x + step) y
  end.

Definition lookup_font (name : string) (size : Z) : option font :=
  if String.eqb name "impact.ttf" && (0 <? size) then Some (impact size)
  else None.

#[export] Instance pillow : Pillow := {|
  Font := font;
  truetype := lookup_font;
  load_default := builtin;
  textbbox := bbox;
  getmask := fun f text x y => cells (advance f) text (Host.int x) y;
  blend := Host.mix
|}.

(** The page after the upload of a white picture, 100 wide and 60 high. *)
Definition picture : Image := Host.white_picture 100 60.

Definition uploaded : loc := 1%positive.

Definition world : World :=
  {| images := {[ uploaded := picture ]};
     drawn := [];
     page := [] |}.

End Studio.

(** ** Two more fonts

    [Bearing]: a host whose built-in font leaves two pixels of side bearing
    before the first character, so that the box measured at (0, 0) starts
    at left = 2.

    [Tofu]: a host whose built-in font has an empty glyph for the space and
    no glyph at all for the control characters; the rasteriser draws the
    box of the missing glyph for those, the tab among them. *)

Module Bearing.

Inductive font := builtin.

Definition bbox (text : string) : Z * Z * Z * Z :=
  (2, 0, 2 + 6 * Z.of_nat (String.length text), 11).

#[export] Instance pillow : Pillow := {|
  Font := font;
  truetype := fun _ _ => None;
  load_default := builtin;
  textbbox := fun _ text => bbox text;
  getmask := fun _ text x y => Host.cells text (Host.int x + 2) y;
  blend := Host.mix
|}.

Definition picture : Image := Host.white_picture 24 32.

Definition uploaded : loc := 1%positive.

Definition world : World :=
  {| images := {[ uploaded := picture ]};
     drawn := [];
     page := [] |}.

End Bearing.

Module Tofu.

Inductive font := builtin.

Definition has_ink (c : ascii) : bool := negb (nat_of_ascii c =? 32)%nat.

Fixpoint cells (text : string) (x y : Z) : list (Z * Z * Z) :=
  match text with
  | EmptyString => []
  | String c rest =>
      (if has_ink c then [(x, y, 255)] else []) ++ cells rest (x + 6) y
  end.

#[export] Instance pillow : Pillow := {|
  Font := font;
  truetype := fun _ _ => None;
  load_default := builtin;
  textbbox := fun _ text => Host.bbox text;
  getmask := fun _ text x y => cells text (Host.int x) y;
  blend := Host.mix
|}.

Definition picture : Image := Host.white_picture 24 32.

Definition uploaded : loc := 1%positive.

Definition world : World :=
  {| images := {[ uploaded := picture ]};
     drawn := [];
     page := [] |}.

(** A caption of one tab. *)
Definition tab : string := String (ascii_of_nat 9) EmptyString.

End Tofu.

(** ** The caption fetch

    [get_ai_caption] posts the picture to the captioning service and reads
    the caption out of the JSON answer.  The service is a function from the
    request to what [requests.post] comes to; the body of the answer is kept
    as the value [response.json()] parses it to. *)

Module Fetch.

(** A parsed JSON value; an object is the list of the items of the dict
    it parses to. *)
#[local] Unset Elimination Schemes.
Inductive json :=
| JNull
| JBool (b : bool)
| JNumber (n : Z)
| JString (s : string)
| JArray (items : list json)
| JObject (fields : list (string * json)).
#[local] Set Elimination Schemes.

(** The exceptions the try block can meet; all derive from [Exception]. *)
Inductive exn :=
| Timeout
| ConnectionError
| HTTPError (status_code : Z)
| JSONDecodeError
| KeyError
| IndexError
| TypeError
| AttributeError.

Definition str (e : exn) : string :=
  match e with
  | Timeout => "Timeout"
  | ConnectionError => "ConnectionError"
  | HTTPError _ => "HTTPError"
  | JSONDecodeError => "JSONDecodeError"
  | KeyError => "KeyError"
  | IndexError => "IndexError"
  | TypeError => "TypeError"
  | AttributeError => "AttributeError"
  end.

(** The request: the URL carries the key, the payload the prompt and the
    picture (its base64 coding is left out), and the call is given 60
    seconds. *)
Record Request := {
  url : string;
  prompt : string;
  image_data : string;
  timeout : Z
}.

(** What [requests.post] comes to: it raises, or it returns a response
    with a status code and a body ([None]: a body that is not JSON). *)
Inductive exchange :=
| Raises (e : exn)
| Responds (status_code : Z) (body : option json).

#[export] Instance exn_ret : MRet (sum exn) := fun A a => inr a.
#[export] Instance exn_bind : MBind (sum exn) :=
  fun A B k m => match m with inl e => inl e | inr a => k a end.

(** [response.raise_for_status()]: requests raises HTTPError for the
    client and server error codes, 400 to 599, and for no other. *)
Definition raise_for_status (status_code : Z) : exn + unit :=
  if (400 <=? status_code) && (status_code <? 600)
  then inl (HTTPError status_code)
  else inr tt.

(** [response.json()] *)
Definition response_json (body : option json) : exn + json :=
  match body with
  | Some j => inr j
  | None => inl JSONDecodeError
  end.

Fixpoint assoc (key : string) (fields : list (string * json)) : option json :=
  match fields with
  | [] => None
  | (k, v) :: rest => if String.eqb k key then Some v else assoc key rest
  end.

Definition is_string (key : string) (j : json) : bool :=
  match j with
  | JString s => String.eqb s key
  | _ => false
  end.

(** [key in container]: a key of a dict, an item of a list, a substring
    of a string; any other container raises TypeError. *)
Definition contains (key : string) (container : json) : exn + bool :=
  match container with
  | JObject fields => inr (bool_decide (is_Some (assoc key fields)))
  | JArray items => inr (existsb (is_string key) items)
  | JString s => inr (bool_decide (is_Some (String.index 0 key s)))
  | _ => inl TypeError
  end.

(** [container[key]] with a string key. *)
Definition getitem_str (container : json) (key : string) : exn + json :=
  match container with
  | JObject fields =>
      match assoc key fields with
      | Some v => inr v
      | None => inl KeyError
      end
  | _ => inl TypeError
  end.

(** [container[0]] *)
Definition getitem_0 (container : json) : exn + json :=
  match container with
  | JArray [] => inl IndexError
  | JArray (first :: _) => inr first
  | JString EmptyString => inl IndexError
  | JString (String c _) => inr (JString (String c EmptyString))
  | JObject _ => inl KeyError
  | _ => inl TypeError
  end.

(** [value.strip()] *)
Definition strip_method (value : json) : exn + string :=
  match value with
  | JString s => inr (PyStr.strip s)
  | _ => inl AttributeError
  end.

(** How the try block ends when nothing is raised. *)
Inductive ending :=
| Returned (caption : string)
| Malformed.

Definition api_url (api_key : string) : string :=
  "https://generativelanguage.googleapis.com/v1beta/models/gemini-2.0-flash:generateContent?key="
    ++ api_key.

Definition the_prompt : string :=
  "Analyze this image and generate a short, funny meme caption for it. Provide only the text for the caption, without any extra formatting or labels.".

Definition request (image_bytes api_key : string) : Request :=
  {| url := api_url api_key;
     prompt := the_prompt;
     image_data := image_bytes;
     timeout := 60 |}.

Definition try_block (response : exchange) : exn + ending :=
  match response with
  | Raises e => inl e
  | Responds status_code body =>
      _ ← raise_for_status status_code;
      result ← response_json body;
      present ← contains "candidates" result;
      if present : bool then
        candidates ← getitem_str result "candidates";
        candidate ← getitem_0 candidates;
        content ← getitem_str candidate "content";
        parts ← getitem_str content "parts";
        part ← getitem_0 parts;
        text ← getitem_str part "text";
        caption ← strip_method text;
        mret (Returned caption)
      else mret Malformed
  end.

(** [get_ai_caption(image_bytes, api_key)]: the caption returned and the
    messages put on the page.  [except Exception] catches whatever the
    try block raises. *)
Definition get_ai_caption (post : Request -> exchange)
    (image_bytes api_key : string) : string * list Message :=
  match try_block (post (request image_bytes api_key)) with
  | inr (Returned caption) => (caption, [])
  | inr Malformed =>
      ("", [Error "AI could not generate a caption. The response was malformed."])
  | inl e =>
      ("", [Error ("An error occurred while contacting the AI: " ++ str e)])
  end.

(** The answer the program expects: an object whose [candidates] is a
    list, whose first item is an object, whose [content] is an object,
    whose [parts] is a list, whose first item is an object, whose [text]
    is a string. *)
Definition expected_text (j : json) : option string :=
  match j with
  | JObject top =>
      match assoc "candidates" top with
      | Some (JArray (JObject candidate :: _)) =>
          match assoc "content" candidate with
          | Some (JObject content) =>
              match assoc "parts" content with
              | Some (JArray (JObject part :: _)) =>
                  match assoc "text" part with
                  | Some (JString s) => Some s
                  | _ => None
                  end
              | _ => None
              end
          | _ => None
          end
      | _ => None
      end
  | _ => None
  end.

(** A service that answers 300 (Multiple Choices) with a well-formed
    body. *)
Definition well_formed_body : json :=
  JObject [("candidates",
    JArray [JObject [("content",
      JObject [("parts",
        JArray [JObject [("text", JString "When the build passes ")]])])]])].

Definition multiple_choices : Request -> exchange :=
  fun _ => Responds 300 (Some well_formed_body).

(** A service that answers 503 (Service Unavailable) with a body that
    is not JSON. *)
Definition service_unavailable : Request -> exchange :=
  fun _ => Responds 503 None.

End Fetch.

(** ** More of the string methods *)

Module PyStrMore.

(** The last character of a string, if it has one. *)
Fixpoint last_char (s : string) : option ascii :=
  match s with
  | EmptyString => None
  | String c EmptyString => Some c
  | String _ rest => last_char rest
  end.

Definition first_char (s : string) : option ascii :=
  match s with
  | EmptyString => None
  | String c _ => Some c
  end.

End PyStrMore.

(** ** The two messages of the caption fetch, by name *)

Module FetchMessages.
Import Fetch.

Definition malformed_message : string :=
  "AI could not generate a caption. The response was malformed.".

Definition contact_message (e : exn) : string :=
  "An error occurred while contacting the AI: " ++ str e.

End FetchMessages.

(** ** The page

    One run of the script below the two functions: Streamlit runs it from
    top to bottom on every interaction, and the widgets return what the
    user has set.  [get_ai_caption] is called through [@st.cache_data]. *)

Module Page.
Import Fetch.

(** The store of [@st.cache_data]: the value returned and the messages
    shown, kept under the arguments of the call. *)
Definition cache : Type := gmap (string * string) (string * list Message).

(** The decorated [get_ai_caption]: a call whose arguments are in the store
    returns what is stored and shows its messages again, without running
    the function; any other call runs it and stores what it gives. *)
Definition cached_get_ai_caption (post : Request -> exchange)
    (image_bytes api_key : string) (c : cache)
    : (string * list Message) * cache :=
  match c !! (image_bytes, api_key) with
  | Some stored => (stored, c)
  | None =>
      let result := get_ai_caption post image_bytes api_key in
      (result, <[(image_bytes, api_key) := result]> c)
  end.

(** What the widgets return in one run: the key field, the picture decoded
    from the upload (an object of the heap, [None] before any upload),
    whether the run is the one a click on the button starts, and the texts
    held for the two caption fields. *)
Record Widgets := {
  ui_api_key : string;
  ui_uploaded_file : option loc;
  ui_button : bool;
  ui_top_text : string;
  ui_bottom_text : string
}.

(** The argument of [st.download_button]. *)
Record Download := {
  data : string;
  file_name : string;
  mime : string
}.

(** What a run leaves besides the world: the [st.info] notes, the text of
    the bottom field, the meme shown and the download offered. *)
Record Shown := {
  infos : list string;
  bottom_text_shown : string;
  meme : option loc;
  download : option Download
}.

Section Script.
Context `{Pillow}.

(** The captioning service. *)
Variable post : Request -> exchange.

(** [image.save(buffer, format=...)] followed by [buffer.getvalue()]: the
    encoder of Pillow for the format. *)
Variable save : string -> Image -> string.

Definition image_save (image : loc) (format : string) : M string :=
  fun w =>
    match images w !! image with
    | Some im => Some (save format im, w)
    | None => None
    end.

(** The messages a call of [get_ai_caption] puts on the page. *)
Definition st_show (ms : list Message) : M unit :=
  fun w => Some (tt, {| images := images w; drawn := drawn w;
                        page := page w ++ ms |}).

(** The left column, under the original image: the notes shown, the text
    the bottom field is left with, and the store. *)
Definition suggest (ui : Widgets) (image : loc) (c : cache)
    : M (list string * string * cache) :=
  if PyStr.truthy (ui_api_key ui) then
    if ui_button ui then
      img_bytes ← image_save image "JPEG";
      let '((ai_caption, ms), c') :=
        cached_get_ai_caption post img_bytes (ui_api_key ui) c in
      st_show ms;;
      (* st.session_state.bottom_text = ai_caption *)
      mret ([], ai_caption, c')
    else mret ([], ui_bottom_text ui, c)
  else
    mret (["Enter an API key above to enable AI caption suggestions."],
          ui_bottom_text ui, c).

Definition script (ui : Widgets) (c : cache) : M (Shown * cache) :=
  match ui_uploaded_file ui with
  | Some image =>
      '(notes, bottom_text, c') ← suggest ui image c;
      let top_text := ui_top_text ui in
      result ← make_meme image top_text bottom_text;
      match result with
      | Some meme_image =>
          byte_im ← image_save meme_image "PNG";
          mret ({| infos := notes;
                   bottom_text_shown := bottom_text;
                   meme := Some meme_image;
                   download := Some {| data := byte_im;
                                       file_name := "meme.png";
                                       mime := "image/png" |} |}, c')
      | None =>
          mret ({| infos := notes;
                   bottom_text_shown := bottom_text;
                   meme := None;
                   download := None |}, c')
      end
  | None =>
      mret ({| infos := ["Upload an image to get started."];
               bottom_text_shown := ui_bottom_text ui;
               meme := None;
               download := None |}, c)
  end.

End Script.

(** An encoder for the examples: it keeps the format and the size. *)
Definition toy_save (format : string) (im : Image) : string :=
  if fst (im_size im) =? 24 then format ++ " 24" else format.

(** Two runs on the concrete host: one before any key is typed, one
    started by the click, with a key and "old text" in the bottom field. *)
Definition idle : Widgets :=
  {| ui_api_key := "";
     ui_uploaded_file := Some Host.uploaded;
     ui_button := false;
     ui_top_text := "hi";
     ui_bottom_text := "" |}.

Definition clicked : Widgets :=
  {| ui_api_key := "key";
     ui_uploaded_file := Some Host.uploaded;
     ui_button := true;
     ui_top_text := "";
     ui_bottom_text := "old text" |}.

(** A service that answers 200 with a caption of white space only. *)
Definition blank_answer : Request -> exchange :=
  fun _ =>
    Responds 200 (Some (JObject [("candidates",
      JArray [JObject [("content",
        JObject [("parts",
          JArray [JObject [("text", JString "  ")]])])]])])).

(** A service that answers 200 with an object that has no candidates, and
    one whose candidates list is empty. *)
Definition no_candidates : Request -> exchange :=
  fun _ => Responds 200 (Some (JObject [("error", JString "quota")])).

Definition empty_candidates : Request -> exchange :=
  fun _ => Responds 200 (Some (JObject [("candidates", JArray [])])).

End Page.

(** ** The box of a caption on the picture

    [draw.textbbox((0, 0), text, font=font)] measures the text at the
    origin; Pillow reports the box of the same text drawn at (x, y) as that
    box moved by (x, y).  The edges of a caption are those of the box of
    its fill call. *)

Section Boxes.
Context `{Pillow}.

Definition bbox_left (font : Font) (text : string) : Z :=
  let '(l, _, _, _) := textbbox font text in l.

Definition bbox_top (font : Font) (text : string) : Z :=
  let '(_, t, _, _) := textbbox font text in t.

Definition bbox_right (font : Font) (text : string) : Z :=
  let '(_, _, r, _) := textbbox font text in r.

Definition bbox_bottom (font : Font) (text : string) : Z :=
  let '(_, _, _, b) := textbbox font text in b.

(** [draw.textbbox((x, y), text, font=font)] *)
Definition textbbox_at (font : Font) (text : string) (x : Q) (y : Z)
    : Q * Z * Q * Z :=
  let '(l, t, r, b) := textbbox font text in
  ((x + inject_Z l)%Q, y + t, (x + inject_Z r)%Q, y + b).

Definition box_left (c : TextCall) : Q :=
  (tc_x c + inject_Z (bbox_left (tc_font c) (tc_text c)))%Q.

Definition box_right (c : TextCall) : Q :=
  (tc_x c + inject_Z (bbox_right (tc_font c) (tc_text c)))%Q.

Definition box_top (c : TextCall) : Z :=
  tc_y c + bbox_top (tc_font c) (tc_text c).

Definition box_bottom (c : TextCall) : Z :=
  tc_y c + bbox_bottom (tc_font c) (tc_text c).

(** The middle of the box, from left to right. *)
Definition box_middle (c : TextCall) : Q :=
  ((box_left c + box_right c) / 2)%Q.

End Boxes.
(** ** Facts about the drawing primitives *)

Section DrawingFacts.
Context `{Pillow}.

Lemma bind_run {A B} (m : M A) (k : A -> M B) (w w' : World) (a : A) :
  m w = Some (a, w') -> (m ≫= k) w = k a w'.
Proof. intros Hm. unfold mbind, M_bind, bind. now rewrite Hm. Qed.

Lemma paint_pixel_size c im p : im_size (paint_pixel c im p) = im_size im.
Proof.
  destruct p as [[x y] a]. unfold paint_pixel.
  destruct (in_bounds im x y); [|reflexivity].
  destruct (im_data im !! offset im x y); reflexivity.
Qed.

Lemma paint_pixel_length c im p :
  length (im_data (paint_pixel c im p)) = length (im_data im).
Proof.
  destruct p as [[x y] a]. unfold paint_pixel.
  destruct (in_bounds im x y); [|reflexivity].
  destruct (im_data im !! offset im x y); [|reflexivity].
  simpl. apply length_insert.
Qed.

Lemma render_text_size c im : im_size (render_text c im) = im_size im.
Proof.
  unfold render_text.
  generalize (getmask (tc_font c) (tc_text c) (tc_x c) (tc_y c)) as mask.
  intros mask. revert im.
  induction mask as [|p mask IH]; intros im; simpl; [reflexivity|].
  rewrite IH. apply paint_pixel_size.
Qed.

Lemma render_text_length c im :
  length (im_data (render_text c im)) = length (im_data im).
Proof.
  unfold render_text.
  generalize (getmask (tc_font c) (tc_text c) (tc_x c) (tc_y c)) as mask.
  intros mask. revert im.
  induction mask as [|p mask IH]; intros im; simpl; [reflexivity|].
  rewrite IH. apply paint_pixel_length.
Qed.

(** A call for which the font inks nothing leaves the pixels alone. *)
Lemma render_text_inkless c im :
  getmask (tc_font c) (tc_text c) (tc_x c) (tc_y c) = [] ->
  render_text c im = im.
Proof. intros Hmask. unfold render_text. now rewrite Hmask. Qed.

Lemma render_calls_inkless cs im :
  Forall (fun c => getmask (tc_font c) (tc_text c) (tc_x c) (tc_y c) = []) cs ->
  render_calls cs im = im.
Proof.
  intros Hall. revert im.
  induction Hall as [|c cs Hc _ IH]; intros im; [reflexivity|].
  unfold render_calls in *. simpl. rewrite render_text_inkless by exact Hc.
  apply IH.
Qed.

Lemma render_calls_size cs im : im_size (render_calls cs im) = im_size im.
Proof.
  revert im. induction cs as [|c cs IH]; intros im; simpl; [reflexivity|].
  unfold render_calls in *. simpl. rewrite IH. apply render_text_size.
Qed.

Lemma render_calls_length cs im :
  length (im_data (render_calls cs im)) = length (im_data im).
Proof.
  revert im. induction cs as [|c cs IH]; intros im; simpl; [reflexivity|].
  unfold render_calls in *. simpl. rewrite IH. apply render_text_length.
Qed.

Lemma render_calls_snoc cs c im :
  render_calls (cs ++ [c]) im = render_text c (render_calls cs im).
Proof. unfold render_calls. now rewrite foldl_app. Qed.

Lemma after_nil w l im :
  images w !! l = Some im -> after w l im [] [] = w.
Proof.
  intros Hl. destruct w as [h d p]. unfold after; simpl in *.
  rewrite insert_id by exact Hl. now rewrite !app_nil_r.
Qed.

Lemma after_lookup w l im cs ms :
  images (after w l im cs ms) !! l = Some (render_calls cs im).
Proof. simpl. apply lookup_insert_eq. Qed.

Lemma after_lookup_ne w l l' im cs ms :
  l <> l' -> images (after w l im cs ms) !! l' = images w !! l'.
Proof. intros Hne. simpl. now apply lookup_insert_ne. Qed.

Lemma draw_text_after w l im cs ms x y text font f :
  draw_text l x y text font f (after w l im cs ms)
  = Some (tt, after w l im (cs ++ [call x y text font f]) ms).
Proof.
  unfold draw_text. rewrite after_lookup.
  unfold after; simpl. do 2 f_equal.
  rewrite insert_insert_eq, render_calls_snoc, <- app_assoc.
  reflexivity.
Qed.

Lemma draw_text_with_outline_after w l im cs ms font text x y :
  draw_text_with_outline l font text x y (after w l im cs ms)
  = Some (tt, after w l im (cs ++ outline_calls font text x y) ms).
Proof.
  unfold draw_text_with_outline.
  repeat (erewrite bind_run by apply draw_text_after).
  rewrite draw_text_after. repeat rewrite <- app_assoc. reflexivity.
Qed.

Lemma st_warning_after w l im cs ms text :
  st_warning text (after w l im cs ms)
  = Some (tt, after w l im cs (ms ++ [Warning text])).
Proof. unfold st_warning, after; simpl. now rewrite <- app_assoc. Qed.

Lemma ImageDraw_Draw_run w l im :
  images w !! l = Some im -> ImageDraw_Draw l w = Some (l, w).
Proof. intros Hl. unfold ImageDraw_Draw. now rewrite Hl. Qed.

Lemma image_size_run w l im :
  images w !! l = Some im -> image_size l w = Some (im_size im, w).
Proof. intros Hl. unfold image_size. now rewrite Hl. Qed.

(** A run of the renderer makes the calls of [meme_calls] on its
    argument, shows the font warning when Impact is missing, and returns
    its argument. *)
Lemma draw_text_on_image_run w image im top_text bottom_text :
  images w !! image = Some im ->
  draw_text_on_image image top_text bottom_text w
  = Some (image,
          after w image im (meme_calls im top_text bottom_text)
                (font_messages (fst (im_size im)))).
Proof.
  intros Hl. unfold draw_text_on_image.
  erewrite bind_run by (eapply ImageDraw_Draw_run; exact Hl).
  erewrite bind_run by (eapply image_size_run; exact Hl).
  unfold meme_calls, font_messages, chosen_font.
  destruct (im_size im) as [width height]; simpl fst.
  rewrite <- (after_nil w image im Hl) at 1.
  destruct (truetype "impact.ttf" (int_truediv width 10)) as [f|].
  - erewrite bind_run by reflexivity.
    unfold top_calls, bottom_calls, top_x, bottom_y, text_width, text_height.
    destruct (PyStr.truthy top_text), (PyStr.truthy bottom_text).
    + destruct (textbbox f (PyStr.upper top_text)) as [[[l1 t1] r1] b1].
      destruct (textbbox f (PyStr.upper bottom_text)) as [[[l2 t2] r2] b2].
      erewrite bind_run by apply draw_text_with_outline_after.
      erewrite bind_run by apply draw_text_with_outline_after.
      reflexivity.
    + destruct (textbbox f (PyStr.upper top_text)) as [[[l1 t1] r1] b1].
      erewrite bind_run by apply draw_text_with_outline_after.
      erewrite bind_run by reflexivity.
      rewrite app_nil_r. reflexivity.
    + destruct (textbbox f (PyStr.upper bottom_text)) as [[[l2 t2] r2] b2].
      erewrite bind_run by reflexivity.
      erewrite bind_run by apply draw_text_with_outline_after.
      reflexivity.
    + erewrite bind_run by reflexivity.
      erewrite bind_run by reflexivity.
      reflexivity.
  - erewrite bind_run
      by (erewrite bind_run by apply st_warning_after; reflexivity).
    unfold top_calls, bottom_calls, top_x, bottom_y, text_width, text_height.
    destruct (PyStr.truthy top_text), (PyStr.truthy bottom_text).
    + destruct (textbbox load_default (PyStr.upper top_text))
        as [[[l1 t1] r1] b1].
      destruct (textbbox load_default (PyStr.upper bottom_text))
        as [[[l2 t2] r2] b2].
      erewrite bind_run by apply draw_text_with_outline_after.
      erewrite bind_run by apply draw_text_with_outline_after.
      reflexivity.
    + destruct (textbbox load_default (PyStr.upper top_text))
        as [[[l1 t1] r1] b1].
      erewrite bind_run by apply draw_text_with_outline_after.
      erewrite bind_run by reflexivity.
      rewrite app_nil_r. reflexivity.
    + destruct (textbbox load_default (PyStr.upper bottom_text))
        as [[[l2 t2] r2] b2].
      erewrite bind_run by reflexivity.
      erewrite bind_run by apply draw_text_with_outline_after.
      reflexivity.
    + erewrite bind_run by reflexivity.
      erewrite bind_run by reflexivity.
      reflexivity.
Qed.

End DrawingFacts.


(** ** Facts about the string methods *)

Module PyStrFacts.
Import PyStr.

Example upper_hello : upper "hello, World 42" = "HELLO, WORLD 42".
Proof. reflexivity. Qed.

Example strip_spaces : strip "  two words  " = "two words".
Proof. reflexivity. Qed.

Example blank_spaces : blank "   " = true /\ blank " a " = false.
Proof. split; reflexivity. Qed.

Lemma truthy_true s : truthy s = true <-> s <> "".
Proof. destruct s; simpl; split; congruence. Qed.

Lemma truthy_false s : truthy s = false <-> s = "".
Proof. destruct s; simpl; split; congruence. Qed.

Lemma upper_char_not_lower c : is_lower (upper_char c) = false.
Proof. destruct c as [[] [] [] [] [] [] [] []]; reflexivity. Qed.

Lemma upper_char_moves c : is_lower c = true -> upper_char c <> c.
Proof.
  destruct c as [[] [] [] [] [] [] [] []]; intros Hc;
    try discriminate Hc; vm_compute; discriminate.
Qed.

Lemma upper_no_lower s : any_char is_lower (upper s) = false.
Proof.
  induction s as [|c s IH]; simpl; [reflexivity|].
  now rewrite upper_char_not_lower, IH.
Qed.

Lemma upper_changes s : any_char is_lower s = true -> upper s <> s.
Proof.
  induction s as [|c s IH]; simpl; [discriminate|].
  intros Hany Heq. injection Heq as Hc Hs.
  apply orb_true_iff in Hany as [Hl|Hl].
  - now apply (upper_char_moves c).
  - now apply IH.
Qed.

Lemma upper_truthy s : truthy (upper s) = truthy s.
Proof. destruct s; reflexivity. Qed.

End PyStrFacts.

(** ** Properties of the renderer *)

Section RendererProperties.
Context `{Pillow}.

Lemma meme_calls_slots im top_text bottom_text :
  meme_calls im top_text bottom_text
  = top_calls (chosen_font (fst (im_size im))) (fst (im_size im)) top_text
      ++ bottom_calls (chosen_font (fst (im_size im))) (fst (im_size im))
           (snd (im_size im)) bottom_text.
Proof. unfold meme_calls. now destruct (im_size im). Qed.

Lemma top_calls_empty font width : top_calls font width "" = [].
Proof. reflexivity. Qed.

Lemma bottom_calls_empty font width height :
  bottom_calls font width height "" = [].
Proof. reflexivity. Qed.

Lemma top_calls_set font width top_text :
  top_text <> "" ->
  top_calls font width top_text
  = outline_calls font (PyStr.upper top_text)
      (top_x font width (PyStr.upper top_text)) 10.
Proof.
  intros Hne. unfold top_calls.
  now rewrite (proj2 (PyStrFacts.truthy_true top_text) Hne).
Qed.

Lemma bottom_calls_set font width height bottom_text :
  bottom_text <> "" ->
  bottom_calls font width height bottom_text
  = outline_calls font (PyStr.upper bottom_text)
      (top_x font width (PyStr.upper bottom_text))
      (bottom_y font height (PyStr.upper bottom_text)).
Proof.
  intros Hne. unfold bottom_calls.
  now rewrite (proj2 (PyStrFacts.truthy_true bottom_text) Hne).
Qed.

Lemma chosen_font_missing width :
  truetype "impact.ttf" (int_truediv width 10) = None ->
  chosen_font width = load_default
  /\ font_messages width = [Warning font_warning].
Proof. intros Hm. unfold chosen_font, font_messages. now rewrite Hm. Qed.

Lemma outline_calls_font font text x y :
  Forall (fun c => tc_font c = font) (outline_calls font text x y).
Proof. unfold outline_calls. repeat constructor. Qed.

Lemma top_calls_font font width top_text :
  Forall (fun c => tc_font c = font) (top_calls font width top_text).
Proof.
  unfold top_calls. destruct (PyStr.truthy top_text);
    [apply outline_calls_font | constructor].
Qed.

Lemma bottom_calls_font font width height bottom_text :
  Forall (fun c => tc_font c = font)
         (bottom_calls font width height bottom_text).
Proof.
  unfold bottom_calls. destruct (PyStr.truthy bottom_text);
    [apply outline_calls_font | constructor].
Qed.

(** The white call of an outline is the one at the target position. *)
Lemma outline_calls_white font text x y c :
  In c (outline_calls font text x y) -> tc_fill c = white ->
  c = call x y text font white.
Proof.
  unfold outline_calls. simpl.
  intros [<-|[<-|[<-|[<-|[<-|[]]]]]] Hf; simpl in Hf;
    try discriminate Hf; reflexivity.
Qed.

(** Half the difference, as true division computes it, centres. *)
Lemma truediv_centres (width tw : Z) :
  (truediv (width - tw) 2 + inject_Z tw / 2 == inject_Z width / 2)%Q.
Proof.
  unfold truediv, Qeq, Qdiv, Qplus, Qmult, Qinv, inject_Z. simpl. lia.
Qed.

Lemma truediv_positive (width tw : Z) :
  tw < width -> (0 < truediv (width - tw) 2)%Q.
Proof.
  intros Hlt. unfold truediv, Qlt, Qdiv, Qmult, Qinv, inject_Z. simpl. lia.
Qed.

Lemma truediv_fits (width tw : Z) :
  tw < width -> (truediv (width - tw) 2 + inject_Z tw < inject_Z width)%Q.
Proof.
  intros Hlt.
  unfold truediv, Qlt, Qdiv, Qplus, Qmult, Qinv, inject_Z. simpl. lia.
Qed.

(** C1. For every image and every pair of captions, the bitmap
    [draw_text_on_image] returns has the width and the height of the
    image it was given (and a pixel buffer of the same length). *)
Theorem draw_text_on_image_keeps_dimensions
    (w : World) (image : loc) (im : Image) (top_text bottom_text : string) :
  images w !! image = Some im ->
  exists (out : loc) (w' : World) (im' : Image),
    draw_text_on_image image top_text bottom_text w = Some (out, w')
    /\ images w' !! out = Some im'
    /\ im_size im' = im_size im
    /\ length (im_data im') = length (im_data im).
Proof.
  intros Hl. eexists _, _, _. split; [|split; [|split]].
  - apply draw_text_on_image_run; exact Hl.
  - apply after_lookup.
  - apply render_calls_size.
  - apply render_calls_length.
Qed.

(** C2. With both captions empty, the bitmap [draw_text_on_image] returns
    is the input image, pixel for pixel: no text call is made. *)
Theorem empty_captions_keep_every_pixel
    (w : World) (image : loc) (im : Image) :
  images w !! image = Some im ->
  exists (out : loc) (w' : World),
    draw_text_on_image image "" "" w = Some (out, w')
    /\ images w' !! out = Some im
    /\ images w' = images w
    /\ drawn w' = drawn w.
Proof.
  intros Hl. eexists _, _. split; [apply draw_text_on_image_run; exact Hl|].
  rewrite meme_calls_slots, top_calls_empty, bottom_calls_empty.
  simpl. rewrite lookup_insert_eq, app_nil_r.
  repeat split. now apply insert_id.
Qed.

(** C3, as the program has it.  [draw_text_on_image] draws into the image
    object it is given and returns that same object, leaving every other
    object alone; the page calls it on [image.copy()], so the uploaded
    image is unchanged after the call and the meme is an object of its
    own, distinct from the upload and of the same dimensions. *)
Theorem page_keeps_the_uploaded_image
    (w : World) (image : loc) (im : Image) (top_text bottom_text : string) :
  images w !! image = Some im ->
  (exists w' : World,
      draw_text_on_image image top_text bottom_text w = Some (image, w')
      /\ forall l, l <> image -> images w' !! l = images w !! l)
  /\ (exists (result : option loc) (w' : World),
      make_meme image top_text bottom_text w = Some (result, w')
      /\ images w' !! image = Some im
      /\ forall meme, result = Some meme ->
           meme <> image
           /\ images w !! meme = None
           /\ exists im', images w' !! meme = Some im'
                          /\ im_size im' = im_size im).
Proof.
  intros Hl. split.
  - eexists. split; [apply draw_text_on_image_run; exact Hl|].
    intros l Hne. simpl. now apply lookup_insert_ne.
  - unfold make_meme.
    destruct (PyStr.truthy top_text || PyStr.truthy bottom_text).
    + pose (fresh (dom (images w))) as l.
      assert (Hfresh : images w !! l = None).
      { apply not_elem_of_dom. apply is_fresh. }
      assert (Hne : l <> image) by congruence.
      pose ({| images := <[l := im]> (images w);
               drawn := drawn w; page := page w |}) as w1.
      assert (Hcopy : image_copy image w = Some (l, w1)).
      { unfold image_copy. now rewrite Hl. }
      erewrite bind_run by exact Hcopy.
      assert (Hl1 : images w1 !! l = Some im) by apply lookup_insert_eq.
      erewrite bind_run by (apply draw_text_on_image_run; exact Hl1).
      eexists _, _. split; [reflexivity|]. split.
      * simpl. rewrite lookup_insert_ne by exact Hne.
        rewrite lookup_insert_ne by exact Hne. exact Hl.
      * intros meme [= <-]. repeat split; [exact Hne | exact Hfresh |].
        eexists. split; [apply after_lookup | apply render_calls_size].
    + eexists _, _. split; [reflexivity|]. split; [exact Hl|].
      intros meme Hm. discriminate Hm.
Qed.

(** C4. Every text call made for a caption that is not empty carries the
    upper-cased caption: the five calls of the top slot carry
    [top_text.upper()], those of the bottom slot [bottom_text.upper()];
    an upper-cased caption holds no lower-case letter, and differs from
    the caption as typed whenever that one holds a lower-case letter. *)
Theorem captions_are_drawn_upper_cased
    (w : World) (image : loc) (im : Image) (top_text bottom_text : string) :
  images w !! image = Some im ->
  let width := fst (im_size im) in
  let height := snd (im_size im) in
  let font := chosen_font width in
  exists w' : World,
    draw_text_on_image image top_text bottom_text w = Some (image, w')
    /\ drawn w' = drawn w ++ top_calls font width top_text
                           ++ bottom_calls font width height bottom_text
    /\ (top_text <> "" ->
        map tc_text (top_calls font width top_text)
        = repeat (PyStr.upper top_text) 5)
    /\ (bottom_text <> "" ->
        map tc_text (bottom_calls font width height bottom_text)
        = repeat (PyStr.upper bottom_text) 5)
    /\ (forall s, PyStr.any_char PyStr.is_lower (PyStr.upper s) = false)
    /\ (forall s, PyStr.any_char PyStr.is_lower s = true ->
                  PyStr.upper s <> s).
Proof.
  intros Hl width height font. eexists.
  split; [apply draw_text_on_image_run; exact Hl|].
  split; [simpl; now rewrite meme_calls_slots|].
  split; [intros Hne; now rewrite top_calls_set|].
  split; [intros Hne; now rewrite bottom_calls_set|].
  split; [apply PyStrFacts.upper_no_lower | apply PyStrFacts.upper_changes].
Qed.

End RendererProperties.

(** ** Facts about the box of a caption *)

Section BoxFacts.
Context `{Pillow}.

Lemma textbbox_at_box (c : TextCall) :
  textbbox_at (tc_font c) (tc_text c) (tc_x c) (tc_y c)
  = (box_left c, box_top c, box_right c, box_bottom c).
Proof.
  unfold textbbox_at, box_left, box_top, box_right, box_bottom,
    bbox_left, bbox_top, bbox_right, bbox_bottom.
  now destruct (textbbox (tc_font c) (tc_text c)) as [[[l t] r] b].
Qed.

Lemma text_width_box font text :
  text_width font text = bbox_right font text - bbox_left font text.
Proof.
  unfold text_width, bbox_right, bbox_left.
  now destruct (textbbox font text) as [[[l t] r] b].
Qed.


(** The width of the box of a call is the measured width. *)
Lemma box_width c :
  (box_right c - box_left c
   == inject_Z (text_width (tc_font c) (tc_text c)))%Q.
Proof.
  rewrite text_width_box. unfold box_right, box_left.
  generalize (bbox_right (tc_font c) (tc_text c)) as r.
  generalize (bbox_left (tc_font c) (tc_text c)) as l.
  intros l r. destruct (tc_x c) as [n d].
  unfold Qeq, Qminus, Qplus, Qopp, inject_Z. simpl. lia.
Qed.

(** Anchored at half the difference, the box has its middle at half the
    width plus its own left offset. *)
Lemma box_middle_at_half_difference width y text font f :
  (box_middle (call (truediv (width - text_width font text) 2) y text font f)
   == inject_Z width / 2 + inject_Z (bbox_left font text))%Q.
Proof.
  unfold box_middle, box_left, box_right. simpl.
  rewrite text_width_box.
  generalize (bbox_right font text) as r.
  generalize (bbox_left font text) as l.
  intros l r.
  unfold truediv, Qeq, Qdiv, Qplus, Qmult, Qinv, inject_Z. simpl. lia.
Qed.

(** How far a middle at [m + l] is from [m]. *)
Lemma middle_within_one (middle m : Q) (l : Z) :
  (middle == m + inject_Z l)%Q ->
  (Qabs (middle - m) <= 1)%Q <-> -1 <= l <= 1.
Proof.
  intros Hmid.
  assert (Hd : (middle - m == inject_Z l)%Q).
  { rewrite Hmid. unfold Qminus.
    rewrite (Qplus_comm m), <- Qplus_assoc, Qplus_opp_r.
    apply Qplus_0_r. }
  rewrite Hd, Qabs_Qle_condition.
  unfold Qle, Qopp, inject_Z. simpl. lia.
Qed.



End BoxFacts.

Section RendererLayout.
Context `{Pillow}.

(** The fill call of a run is that of one of the two slots. *)
Lemma fill_call_of_a_run im top_text bottom_text c :
  In c (meme_calls im top_text bottom_text) -> tc_fill c = white ->
  exists y,
    c = call (truediv (fst (im_size im)
                       - text_width (tc_font c) (tc_text c)) 2)
             y (tc_text c) (tc_font c) white.
Proof.
  rewrite meme_calls_slots. intros Hin Hwhite.
  apply in_app_or in Hin as [Hin|Hin].
  - unfold top_calls in Hin.
    destruct (PyStr.truthy top_text); [|destruct Hin].
    apply outline_calls_white in Hin; [|exact Hwhite].
    subst c. eexists. reflexivity.
  - unfold bottom_calls in Hin.
    destruct (PyStr.truthy bottom_text); [|destruct Hin].
    apply outline_calls_white in Hin; [|exact Hwhite].
    subst c. eexists. reflexivity.
Qed.

(** C5, as the program has it.  Every caption that is not empty gets a
    fill call, and for a caption narrower than the image that call is
    anchored at [x = (width - textWidth) / 2], where [textWidth] is right
    minus left of the box measured at the origin.  The box of the caption
    then runs from [x + left] to [x + right]: its middle is at
    [width / 2 + left], so it is within one pixel of the middle of the
    image exactly when [left] is -1, 0 or 1, and on it when [left] is 0. *)
Theorem captions_are_centred_up_to_the_left_offset
    (w : World) (image : loc) (im : Image) (top_text bottom_text : string) :
  images w !! image = Some im ->
  let width := fst (im_size im) in
  exists (w' : World) (cs : list TextCall),
    draw_text_on_image image top_text bottom_text w = Some (image, w')
    /\ drawn w' = drawn w ++ cs
    /\ (top_text <> "" ->
        exists c, In c cs /\ tc_fill c = white
                  /\ tc_text c = PyStr.upper top_text)
    /\ (bottom_text <> "" ->
        exists c, In c cs /\ tc_fill c = white
                  /\ tc_text c = PyStr.upper bottom_text)
    /\ forall c, In c cs -> tc_fill c = white ->
         let tw := text_width (tc_font c) (tc_text c) in
         let left := bbox_left (tc_font c) (tc_text c) in
         tw < width ->
         tc_x c = truediv (width - tw) 2
         /\ (box_right c - box_left c == inject_Z tw)%Q
         /\ (box_middle c == inject_Z width / 2 + inject_Z left)%Q
         /\ ((Qabs (box_middle c - inject_Z width / 2) <= 1)%Q
             <-> -1 <= left <= 1)
         /\ (left = 0 -> (box_middle c == inject_Z width / 2)%Q)
         /\ (0 < tc_x c)%Q.
Proof.
  intros Hl width. eexists _, _.
  split; [apply draw_text_on_image_run; exact Hl|].
  split; [reflexivity|].
  split; [|split].
  - rewrite meme_calls_slots. fold width.
    intros Hne. rewrite top_calls_set by exact Hne.
    eexists. split; [apply in_or_app; left; do 4 right; left; reflexivity|].
    split; reflexivity.
  - rewrite meme_calls_slots. fold width.
    intros Hne. rewrite bottom_calls_set by exact Hne.
    eexists. split; [apply in_or_app; right; do 4 right; left; reflexivity|].
    split; reflexivity.
  - intros c Hin Hwhite tw left Hlt.
    destruct (fill_call_of_a_run im top_text bottom_text c Hin Hwhite)
      as [y Hc].
    fold width tw in Hc.
    assert (Hmid : (box_middle c == inject_Z width / 2 + inject_Z left)%Q).
    { rewrite Hc. subst tw left.
      rewrite box_middle_at_half_difference. reflexivity. }
    split; [rewrite Hc; reflexivity|].
    split; [apply box_width|].
    split; [exact Hmid|].
    split; [now apply middle_within_one|].
    split; [intros Hzero; rewrite Hmid, Hzero; apply Qplus_0_r|].
    rewrite Hc. simpl. now apply truediv_positive.
Qed.


(** C7, as the program has it.  A slot whose caption is the empty string
    gets no text call, and with both captions empty no image changes.  A
    caption of white space only that is not empty is drawn like any other:
    upper-cased, with the five text calls of the outline.  What these
    leave on the picture is up to the font: when it has no ink for the
    caption the picture is as it was, and the picture after the run is the
    one the calls of the two slots leave. *)
Theorem empty_slot_gets_no_call
    (w : World) (image : loc) (im : Image) (top_text bottom_text : string) :
  images w !! image = Some im ->
  let width := fst (im_size im) in
  let height := snd (im_size im) in
  let font := chosen_font width in
  exists w' : World,
    draw_text_on_image image top_text bottom_text w = Some (image, w')
    /\ drawn w' = drawn w ++ top_calls font width top_text
                           ++ bottom_calls font width height bottom_text
    /\ images w' !! image
       = Some (render_calls (bottom_calls font width height bottom_text)
                 (render_calls (top_calls font width top_text) im))
    /\ (top_text = "" -> top_calls font width top_text = [])
    /\ (bottom_text = "" ->
        bottom_calls font width height bottom_text = [])
    /\ (top_text <> "" ->
        top_calls font width top_text
        = outline_calls font (PyStr.upper top_text)
            (top_x font width (PyStr.upper top_text)) 10)
    /\ (bottom_text <> "" ->
        bottom_calls font width height bottom_text
        = outline_calls font (PyStr.upper bottom_text)
            (top_x font width (PyStr.upper bottom_text))
            (bottom_y font height (PyStr.upper bottom_text)))
    /\ (top_text = "" -> bottom_text = "" -> images w' = images w)
    /\ ((forall x y, getmask font (PyStr.upper top_text) x y = []) ->
        forall im0, render_calls (top_calls font width top_text) im0 = im0)
    /\ ((forall x y, getmask font (PyStr.upper bottom_text) x y = []) ->
        forall im0,
          render_calls (bottom_calls font width height bottom_text) im0 = im0).
Proof.
  intros Hl width height font. eexists.
  split; [apply draw_text_on_image_run; exact Hl|].
  split; [simpl; now rewrite meme_calls_slots|].
  split.
  { simpl. rewrite lookup_insert_eq, meme_calls_slots.
    unfold render_calls. now rewrite foldl_app. }
  split; [now intros ->|].
  split; [now intros ->|].
  split; [intros Hne; now apply top_calls_set|].
  split; [intros Hne; now apply bottom_calls_set|].
  split.
  { intros -> ->. simpl. rewrite meme_calls_slots. simpl.
    now apply insert_id. }
  split.
  - intros Hink im0. apply render_calls_inkless.
    unfold top_calls. destruct (PyStr.truthy top_text); [|constructor].
    unfold outline_calls. repeat constructor; apply Hink.
  - intros Hink im0. apply render_calls_inkless.
    unfold bottom_calls. destruct (PyStr.truthy bottom_text); [|constructor].
    unfold outline_calls. repeat constructor; apply Hink.
Qed.


(** C9. A missing display font does not fail the render: the call
    returns for every image, and when loading impact.ttf at size
    [width / 10] raises the font-lookup error, the renderer shows its
    warning, takes the built-in default font and makes every text call of
    the run with it. *)
Theorem missing_font_falls_back
    (w : World) (image : loc) (im : Image) (top_text bottom_text : string) :
  images w !! image = Some im ->
  let width := fst (im_size im) in
  let height := snd (im_size im) in
  exists w' : World,
    draw_text_on_image image top_text bottom_text w = Some (image, w')
    /\ (truetype "impact.ttf" (int_truediv width 10) = None ->
        page w' = page w ++ [Warning font_warning]
        /\ drawn w' = drawn w ++ top_calls load_default width top_text
                               ++ bottom_calls load_default width height
                                    bottom_text
        /\ Forall (fun c => tc_font c = load_default)
                  (top_calls load_default width top_text
                   ++ bottom_calls load_default width height bottom_text)).
Proof.
  intros Hl width height.
  eexists. split; [apply draw_text_on_image_run; exact Hl|].
  intros Hmiss.
  destruct (chosen_font_missing _ Hmiss) as [Hfont Hmsg].
  simpl. rewrite meme_calls_slots. fold width height.
  rewrite Hfont, Hmsg.
  repeat split.
  apply Forall_app. split;
    [apply top_calls_font | apply bottom_calls_font].
Qed.

End RendererLayout.

(** ** Properties of the caption fetch *)

Module FetchFacts.
Import Fetch.

Lemma bind_inl {A B} (e : exn) (k : A -> exn + B) :
  (inl e ≫= k) = inl e.
Proof. reflexivity. Qed.

Lemma bind_inr {A B} (a : A) (k : A -> exn + B) :
  (inr a ≫= k) = k a.
Proof. reflexivity. Qed.

Lemma raise_for_status_error status_code :
  400 <= status_code < 600 ->
  raise_for_status status_code = inl (HTTPError status_code).
Proof.
  intros [Hlo Hhi]. unfold raise_for_status.
  apply Z.leb_le in Hlo. apply Z.ltb_lt in Hhi. now rewrite Hlo, Hhi.
Qed.

Lemma raise_for_status_pass status_code :
  ~ (400 <= status_code < 600) -> raise_for_status status_code = inr tt.
Proof.
  intros Hout. unfold raise_for_status.
  destruct (400 <=? status_code) eqn:Hlo; [|reflexivity].
  destruct (status_code <? 600) eqn:Hhi; [|reflexivity].
  apply Z.leb_le in Hlo. apply Z.ltb_lt in Hhi. lia.
Qed.

Ltac step :=
  match goal with
  | |- context [match ?x with _ => _ end] => destruct x eqn:?
  | H : context [match ?x with _ => _ end] |- _ => destruct x eqn:?
  end; simpl in *; try discriminate; try congruence.

(** An answer of the expected shape is read to the end. *)
Lemma try_block_expected status_code j s :
  ~ (400 <= status_code < 600) ->
  expected_text j = Some s ->
  try_block (Responds status_code (Some j)) = inr (Returned (PyStr.strip s)).
Proof.
  intros Hout Hs. unfold try_block.
  rewrite raise_for_status_pass by exact Hout. rewrite bind_inr. simpl.
  unfold expected_text in Hs.
  repeat step.
  all: try match goal with
    | Hn : bool_decide _ = false |- _ =>
        apply bool_decide_eq_false in Hn; exfalso; apply Hn; eauto
    end.
  all: injection Hs as ->; reflexivity.
Qed.

(** An answer of any other shape never yields a caption. *)
Lemma try_block_unexpected status_code j :
  expected_text j = None ->
  try_block (Responds status_code (Some j)) = inr Malformed
  \/ exists e, try_block (Responds status_code (Some j)) = inl e.
Proof.
  intros Hs. unfold try_block.
  destruct (raise_for_status status_code) as [e|[]];
    [right; eexists; reflexivity|].
  rewrite bind_inr. simpl.
  unfold expected_text in Hs.
  destruct j; simpl in *;
    repeat step; eauto.
Qed.

(** C10, as the program has it.  When the exchange raises (a timeout
    among the rest), when the answer has a status from 400 to 599, when
    its body is not JSON, or when the JSON has not the expected shape,
    [get_ai_caption] shows one error message and returns the empty
    string; being a function of the exchange, it raises nothing. *)
Theorem failed_fetch_gives_empty_caption
    (post : Request -> exchange) (image_bytes api_key : string) :
  let answer := post (request image_bytes api_key) in
  (exists e, answer = Raises e)
  \/ (exists status_code body,
         answer = Responds status_code body /\ 400 <= status_code < 600)
  \/ (exists status_code, answer = Responds status_code None)
  \/ (exists status_code j,
         answer = Responds status_code (Some j) /\ expected_text j = None) ->
  exists message,
    get_ai_caption post image_bytes api_key = ("", [Error message]).
Proof.
  intros answer Hcase. unfold get_ai_caption. fold answer.
  destruct Hcase as [[e ->]|[(sc & body & -> & Hsc)|[[sc ->]|(sc & j & -> & Hj)]]].
  - simpl. eauto.
  - unfold try_block. rewrite raise_for_status_error by exact Hsc.
    rewrite bind_inl. eauto.
  - unfold try_block.
    destruct (raise_for_status sc) as [e|[]]; simpl; eauto.
  - destruct (try_block_unexpected sc j Hj) as [->|[e ->]]; eauto.
Qed.

End FetchFacts.

(** ** The properties on the concrete host *)

Section OnTheHost.
Import Host.

(** C1 on the host: the picture stays 24 by 32, 768 pixels. *)
Lemma draw_text_on_image_keeps_dimensions_witness :
  images world !! uploaded = Some picture
  /\ exists (out : loc) (w' : World) (im' : Image),
       draw_text_on_image uploaded "hi" "bye" world = Some (out, w')
       /\ images w' !! out = Some im'
       /\ im_size im' = (24, 32)
       /\ length (im_data im') = 768%nat.
Proof.
  split; [reflexivity|].
  exact (draw_text_on_image_keeps_dimensions
           world uploaded picture "hi" "bye" eq_refl).
Defined.

(** C2 on the host: no caption, the same picture. *)
Lemma empty_captions_keep_every_pixel_witness :
  images world !! uploaded = Some picture
  /\ exists (out : loc) (w' : World),
       draw_text_on_image uploaded "" "" world = Some (out, w')
       /\ images w' !! out = Some picture
       /\ images w' = images world
       /\ drawn w' = [].
Proof.
  split; [reflexivity|].
  exact (empty_captions_keep_every_pixel world uploaded picture eq_refl).
Defined.

(** C3, as stated, fails on the renderer itself: given the uploaded
    picture and the caption "hi", [draw_text_on_image] returns the very
    object it was given, and the pixel at column 4 of row 8 of that
    object has turned from white to black. *)
Lemma draw_text_on_image_draws_in_place :
  exists w' : World,
    draw_text_on_image uploaded "hi" "" world = Some (uploaded, w')
    /\ (images world !! uploaded) ≫= (fun im => im_data im !! 196%nat)
       = Some (255, 255, 255)
    /\ (images w' !! uploaded) ≫= (fun im => im_data im !! 196%nat)
       = Some (0, 0, 0)
    /\ images w' !! uploaded <> images world !! uploaded.
Proof.
  eexists. split; [vm_compute; reflexivity|].
  split; [vm_compute; reflexivity|].
  split; [vm_compute; reflexivity|].
  intros Heq.
  apply (f_equal (fun o => o ≫= (fun im => im_data im !! 196%nat))) in Heq.
  vm_compute in Heq. discriminate Heq.
Qed.

(** C3 on the host: after the page made a meme, the upload is as it was. *)
Lemma page_keeps_the_uploaded_image_witness :
  images world !! uploaded = Some picture
  /\ exists (result : option loc) (w' : World),
       make_meme uploaded "hi" "" world = Some (result, w')
       /\ images w' !! uploaded = Some picture.
Proof.
  split; [reflexivity|].
  destruct (page_keeps_the_uploaded_image
              world uploaded picture "hi" "" eq_refl)
    as [_ (result & w' & Hrun & Hkeep & _)].
  exists result, w'. split; assumption.
Defined.

(** C4 on the host: "hi" and "Bye" are drawn as "HI" and "BYE". *)
Lemma captions_are_drawn_upper_cased_witness :
  images world !! uploaded = Some picture
  /\ exists w' : World,
       draw_text_on_image uploaded "hi" "Bye" world = Some (uploaded, w')
       /\ map tc_text (drawn w') = repeat "HI" 5 ++ repeat "BYE" 5.
Proof.
  split; [reflexivity|].
  destruct (captions_are_drawn_upper_cased
              world uploaded picture "hi" "Bye" eq_refl)
    as (w' & Hrun & Hdrawn & Htop & Hbottom & _).
  exists w'. split; [exact Hrun|].
  rewrite Hdrawn, !map_app.
  rewrite Htop by discriminate. rewrite Hbottom by discriminate.
  reflexivity.
Defined.

(** C5 on the host: "HI" is 12 wide, its box starts at left = 0, it is
    filled at x = (24 - 12) / 2 and its middle is on that of the picture. *)
Lemma captions_are_centred_up_to_the_left_offset_witness :
  images world !! uploaded = Some picture
  /\ exists (w' : World) (c : TextCall),
       draw_text_on_image uploaded "hi" "" world = Some (uploaded, w')
       /\ In c (drawn w')
       /\ tc_fill c = white
       /\ tc_x c = truediv (24 - 12) 2
       /\ (box_middle c == inject_Z 24 / 2)%Q.
Proof.
  split; [reflexivity|].
  destruct (captions_are_centred_up_to_the_left_offset
              world uploaded picture "hi" "" eq_refl)
    as (w' & cs & Hrun & Hdrawn & Htop & _ & Hall).
  destruct Htop as (c & Hin & Hwhite & Htext); [discriminate|].
  exists w', c. split; [exact Hrun|].
  split; [rewrite Hdrawn; exact Hin|].
  split; [exact Hwhite|].
  assert (Hw : text_width (tc_font c) (tc_text c) = 12)
    by (rewrite Htext; reflexivity).
  assert (Hleft : bbox_left (tc_font c) (tc_text c) = 0)
    by (rewrite Htext; reflexivity).
  specialize (Hall c Hin Hwhite). simpl in Hall. rewrite Hw in Hall.
  destruct Hall as (Hx & _ & _ & _ & Hzero & _); [reflexivity|].
  split; [exact Hx | exact (Hzero Hleft)].
Defined.


(** C7 on the host: two empty captions, no call, no change. *)
Lemma empty_slot_gets_no_call_witness :
  images world !! uploaded = Some picture
  /\ exists w' : World,
       draw_text_on_image uploaded "" "" world = Some (uploaded, w')
       /\ drawn w' = []
       /\ images w' = images world.
Proof.
  split; [reflexivity|].
  destruct (empty_slot_gets_no_call world uploaded picture "" "" eq_refl)
    as (w' & Hrun & Hdrawn & _ & Htop & Hbottom & _ & _ & Hsame & _).
  exists w'. split; [exact Hrun|].
  split; [|apply Hsame; reflexivity].
  rewrite Hdrawn, Htop, Hbottom; reflexivity.
Defined.


(** C9 on the host: Impact is missing, the warning is shown and the render
    returns. *)
Lemma missing_font_falls_back_witness :
  images world !! uploaded = Some picture
  /\ truetype "impact.ttf" (int_truediv 24 10) = None
  /\ exists w' : World,
       draw_text_on_image uploaded "hi" "" world = Some (uploaded, w')
       /\ page w' = [Warning font_warning].
Proof.
  split; [reflexivity|]. split; [reflexivity|].
  destruct (missing_font_falls_back world uploaded picture "hi" "" eq_refl)
    as (w' & Hrun & Hmissing).
  exists w'. split; [exact Hrun|].
  destruct Hmissing as (Hpage & _); [reflexivity|]. exact Hpage.
Defined.

End OnTheHost.

(** ** The caption fetch on concrete services *)

Section OnTheWire.
Import Fetch FetchFacts.

(** C10, as stated, fails on a status outside 200..299 that is no error
    status: the service answers 300 with a well-formed body, no message
    is shown and the caption of the body is returned. *)
Lemma status_300_answer_is_taken :
  multiple_choices (request "" "key") = Responds 300 (Some well_formed_body)
  /\ ~ (200 <= 300 < 300)
  /\ get_ai_caption multiple_choices "" "key"
     = ("When the build passes", []).
Proof.
  split; [reflexivity|]. split; [lia|]. vm_compute. reflexivity.
Qed.

(** C10 on a service that answers 503: one error message, no caption. *)
Lemma failed_fetch_gives_empty_caption_witness :
  (exists status_code body,
      service_unavailable (request "" "key") = Responds status_code body
      /\ 400 <= status_code < 600)
  /\ exists message,
       get_ai_caption service_unavailable "" "key" = ("", [Error message]).
Proof.
  assert (Hcase : exists status_code body,
             service_unavailable (request "" "key")
             = Responds status_code body
             /\ 400 <= status_code < 600).
  { exists 503, None. split; [reflexivity | lia]. }
  split; [exact Hcase|].
  apply (failed_fetch_gives_empty_caption service_unavailable "" "key").
  right. left. exact Hcase.
Defined.

End OnTheWire.

(** ** Where the box of a caption parts from its anchor *)

Section OnTheBearingHost.
Import Bearing.

(** C5, as stated, fails on a font with side bearing: "HI" measures from
    left = 2 to right = 14, is 12 wide on a picture 24 wide and anchored at
    x = 6, so its box runs from 8 to 20 and has its middle at 14, two
    pixels right of the middle of the picture. *)
Lemma side_bearing_moves_the_caption :
  exists (w' : World) (c : TextCall),
    draw_text_on_image uploaded "hi" "" world = Some (uploaded, w')
    /\ In c (drawn w')
    /\ tc_fill c = white
    /\ tc_text c = "HI"
    /\ text_width (tc_font c) (tc_text c) = 12
    /\ tc_x c = truediv (24 - 12) 2
    /\ textbbox_at (tc_font c) (tc_text c) (tc_x c) (tc_y c)
       = (box_left c, box_top c, box_right c, box_bottom c)
    /\ (box_left c == 8)%Q
    /\ (box_right c == 20)%Q
    /\ (box_middle c == 14)%Q
    /\ ~ (Qabs (box_middle c - inject_Z 24 / 2) <= 1)%Q.
Proof.
  eexists _, (@call pillow (truediv (24 - 12) 2) 10 "HI" builtin white).
  split; [vm_compute; reflexivity|].
  split; [do 4 right; left; reflexivity|].
  repeat (split; [reflexivity|]).
  vm_compute. intros Hle. apply Hle. reflexivity.
Qed.

End OnTheBearingHost.

Section EdgesOnTheStudio.
Import Studio.


End EdgesOnTheStudio.

Section OnTheTofuHost.
Import Tofu.

(** C7, as stated, fails on a caption of one tab with a font that has no
    glyph for it: the caption is white space only, the renderer makes the
    five text calls of the slot, and the pixel at column 7 of row 8 of the
    picture turns from white to black. *)
Lemma tab_caption_is_inked :
  PyStr.blank tab = true
  /\ PyStr.upper tab = tab
  /\ exists w' : World,
       draw_text_on_image uploaded tab "" world = Some (uploaded, w')
       /\ map tc_text (drawn w') = [tab; tab; tab; tab; tab]
       /\ (images world !! uploaded) ≫= (fun im => im_data im !! 199%nat)
          = Some (255, 255, 255)
       /\ (images w' !! uploaded) ≫= (fun im => im_data im !! 199%nat)
          = Some (0, 0, 0)
       /\ images w' !! uploaded <> images world !! uploaded.
Proof.
  split; [reflexivity|]. split; [reflexivity|].
  eexists. split; [vm_compute; reflexivity|].
  split; [reflexivity|].
  split; [vm_compute; reflexivity|].
  split; [vm_compute; reflexivity|].
  intros Heq.
  apply (f_equal (fun o => o ≫= (fun im => im_data im !! 199%nat))) in Heq.
  vm_compute in Heq. discriminate Heq.
Qed.

End OnTheTofuHost.

(** ** Further properties: the string methods as the program uses them *)

Module PyStrStrip.
Import PyStr PyStrMore.

Lemma upper_char_idem c : upper_char (upper_char c) = upper_char c.
Proof. destruct c as [[] [] [] [] [] [] [] []]; reflexivity. Qed.

Lemma upper_idem s : upper (upper s) = upper s.
Proof.
  induction s as [|c s IH]; simpl; [reflexivity|].
  now rewrite upper_char_idem, IH.
Qed.

Lemma lstrip_first s c : first_char (lstrip s) = Some c -> is_space c = false.
Proof.
  induction s as [|a s IH]; simpl; [discriminate|].
  destruct (is_space a) eqn:Ha; [exact IH|].
  simpl. intros [= <-]. exact Ha.
Qed.

Lemma lstrip_clean s c :
  first_char s = Some c -> is_space c = false -> lstrip s = s.
Proof.
  destruct s as [|a s]; simpl; [discriminate|].
  intros [= <-] Ha. now rewrite Ha.
Qed.

Lemma lstrip_blank s : blank s = true -> lstrip s = "".
Proof.
  induction s as [|a s IH]; simpl; [reflexivity|].
  intros Hb. apply andb_true_iff in Hb as [Ha Hs]. rewrite Ha. now apply IH.
Qed.

Lemma rstrip_first s c :
  first_char s = Some c -> is_space c = false ->
  first_char (rstrip s) = Some c.
Proof.
  destruct s as [|a s]; simpl; [discriminate|].
  intros [= <-] Ha. destruct (rstrip s); [now rewrite Ha|reflexivity].
Qed.

Lemma rstrip_idem s : rstrip (rstrip s) = rstrip s.
Proof.
  induction s as [|a s IH]; simpl; [reflexivity|].
  destruct (rstrip s) as [|b r] eqn:Hr.
  - destruct (is_space a) eqn:Ha; simpl; [reflexivity|]. now rewrite Ha.
  - simpl in *. now rewrite IH.
Qed.

Lemma rstrip_last s c : last_char (rstrip s) = Some c -> is_space c = false.
Proof.
  induction s as [|a s IH]; simpl; [discriminate|].
  destruct (rstrip s) as [|b r] eqn:Hr.
  - destruct (is_space a) eqn:Ha; simpl; [discriminate|].
    intros [= <-]. exact Ha.
  - simpl in *. exact IH.
Qed.

Lemma strip_idem s : strip (strip s) = strip s.
Proof.
  unfold strip.
  destruct (first_char (lstrip s)) as [c|] eqn:Hc.
  - pose proof (lstrip_first s c Hc) as Hns.
    rewrite (lstrip_clean (rstrip (lstrip s)) c).
    + apply rstrip_idem.
    + now apply rstrip_first.
    + exact Hns.
  - destruct (lstrip s); [reflexivity|discriminate].
Qed.

Lemma strip_first s c : first_char (strip s) = Some c -> is_space c = false.
Proof.
  unfold strip. intros Hc.
  destruct (first_char (lstrip s)) as [a|] eqn:Ha.
  - pose proof (lstrip_first s a Ha) as Hns.
    rewrite (rstrip_first (lstrip s) a Ha Hns) in Hc.
    now injection Hc as <-.
  - destruct (lstrip s); [discriminate Hc|discriminate Ha].
Qed.

Lemma strip_last s c : last_char (strip s) = Some c -> is_space c = false.
Proof. unfold strip. apply rstrip_last. Qed.

Lemma strip_blank s : blank s = true -> strip s = "".
Proof. intros Hb. unfold strip. now rewrite lstrip_blank. Qed.

End PyStrStrip.

(** ** Further properties of the renderer and of its call site *)

Section RendererMore.
Context `{Pillow}.

Lemma truediv_negative (width tw : Z) :
  width < tw -> (truediv (width - tw) 2 < 0)%Q.
Proof.
  intros Hlt. unfold truediv, Qlt, Qdiv, Qmult, Qinv, inject_Z. simpl. lia.
Qed.

(** X1. When impact.ttf loads, no warning is shown and every text call of
    the run, top and bottom, is made with the font loaded at size
    [int(width / 10)]. *)
Theorem installed_font_is_used
    (w : World) (image : loc) (im : Image) (top_text bottom_text : string)
    (f : Font) :
  images w !! image = Some im ->
  truetype "impact.ttf" (int_truediv (fst (im_size im)) 10) = Some f ->
  let width := fst (im_size im) in
  let height := snd (im_size im) in
  exists w' : World,
    draw_text_on_image image top_text bottom_text w = Some (image, w')
    /\ page w' = page w
    /\ drawn w' = drawn w ++ top_calls f width top_text
                           ++ bottom_calls f width height bottom_text
    /\ Forall (fun c => tc_font c = f)
              (top_calls f width top_text
               ++ bottom_calls f width height bottom_text).
Proof.
  intros Hl Hfound width height. subst width height.
  eexists. split; [apply draw_text_on_image_run; exact Hl|].
  simpl. rewrite meme_calls_slots.
  unfold font_messages, chosen_font. rewrite Hfound.
  split; [apply app_nil_r|]. split; [reflexivity|].
  apply Forall_app. split; [apply top_calls_font | apply bottom_calls_font].
Qed.

(** X2. A caption whose measured width exceeds the width of the image is
    neither shrunk nor wrapped: its slot gets the five calls of the
    outline, each with the whole upper-cased caption and the font of the
    run, the fill call anchored at the negative
    [x = (width - textWidth) / 2]; the box of the caption is as wide as
    measured, hence wider than the image. *)
Theorem wide_caption_is_drawn_whole
    (w : World) (image : loc) (im : Image) (top_text bottom_text : string) :
  images w !! image = Some im ->
  let width := fst (im_size im) in
  let height := snd (im_size im) in
  let font := chosen_font width in
  exists w' : World,
    draw_text_on_image image top_text bottom_text w = Some (image, w')
    /\ drawn w' = drawn w ++ top_calls font width top_text
                           ++ bottom_calls font width height bottom_text
    /\ (top_text <> "" ->
        width < text_width font (PyStr.upper top_text) ->
        exists c : TextCall,
          top_calls font width top_text
          = outline_calls font (PyStr.upper top_text) (tc_x c) 10
          /\ c = call (tc_x c) 10 (PyStr.upper top_text) font white
          /\ tc_x c
             = truediv (width - text_width font (PyStr.upper top_text)) 2
          /\ (tc_x c < 0)%Q
          /\ (box_right c - box_left c
              == inject_Z (text_width font (PyStr.upper top_text)))%Q
          /\ (inject_Z width < box_right c - box_left c)%Q)
    /\ (bottom_text <> "" ->
        width < text_width font (PyStr.upper bottom_text) ->
        exists c : TextCall,
          bottom_calls font width height bottom_text
          = outline_calls font (PyStr.upper bottom_text) (tc_x c)
              (height - text_height font (PyStr.upper bottom_text) - 10)
          /\ c = call (tc_x c)
                   (height - text_height font (PyStr.upper bottom_text) - 10)
                   (PyStr.upper bottom_text) font white
          /\ tc_x c
             = truediv (width - text_width font (PyStr.upper bottom_text)) 2
          /\ (tc_x c < 0)%Q
          /\ (box_right c - box_left c
              == inject_Z (text_width font (PyStr.upper bottom_text)))%Q
          /\ (inject_Z width < box_right c - box_left c)%Q).
Proof.
  intros Hl width height font. eexists.
  split; [apply draw_text_on_image_run; exact Hl|].
  split; [simpl; now rewrite meme_calls_slots|].
  split.
  - intros Hne Hwide.
    exists (call (top_x font width (PyStr.upper top_text)) 10
                 (PyStr.upper top_text) font white).
    split; [now apply top_calls_set|].
    split; [reflexivity|]. split; [reflexivity|].
    split; [now apply truediv_negative|].
    split; [apply box_width|].
    rewrite box_width. simpl. now rewrite <- Zlt_Qlt.
  - intros Hne Hwide.
    exists (call (top_x font width (PyStr.upper bottom_text))
                 (bottom_y font height (PyStr.upper bottom_text))
                 (PyStr.upper bottom_text) font white).
    split; [now apply bottom_calls_set|].
    split; [reflexivity|]. split; [reflexivity|].
    split; [now apply truediv_negative|].
    split; [apply box_width|].
    rewrite box_width. simpl. now rewrite <- Zlt_Qlt.
Qed.

(** X3. The renderer does not tell a caption from its upper-cased form:
    the run on the upper-cased captions is the run on the captions. *)
Theorem renderer_ignores_case
    (w : World) (image : loc) (top_text bottom_text : string) :
  draw_text_on_image image (PyStr.upper top_text) (PyStr.upper bottom_text) w
  = draw_text_on_image image top_text bottom_text w.
Proof.
  destruct (images w !! image) as [im|] eqn:Hl.
  - rewrite !(draw_text_on_image_run w image im) by exact Hl.
    do 3 f_equal. rewrite !meme_calls_slots.
    unfold top_calls, bottom_calls.
    now rewrite !PyStrFacts.upper_truthy, !PyStrStrip.upper_idem.
  - unfold draw_text_on_image, mbind, M_bind, bind, ImageDraw_Draw.
    now rewrite Hl.
Qed.

(** X4. With both captions set, the rectangle of the top caption (from
    y = 10, of the measured height) ends above the start of that of the
    bottom caption exactly when the image is at least as high as the two
    measured heights and twenty more. *)
Theorem captions_apart_on_high_images
    (w : World) (image : loc) (im : Image) (top_text bottom_text : string) :
  images w !! image = Some im ->
  top_text <> "" -> bottom_text <> "" ->
  let width := fst (im_size im) in
  let height := snd (im_size im) in
  let font := chosen_font width in
  let top_height := text_height font (PyStr.upper top_text) in
  let bottom_height := text_height font (PyStr.upper bottom_text) in
  exists (w' : World) (x1 x2 : Q) (y1 y2 : Z),
    draw_text_on_image image top_text bottom_text w = Some (image, w')
    /\ drawn w' = drawn w ++ outline_calls font (PyStr.upper top_text) x1 y1
                           ++ outline_calls font (PyStr.upper bottom_text)
                                x2 y2
    /\ (y1 + top_height <= y2 <-> top_height + bottom_height + 20 <= height).
Proof.
  intros Hl Htop Hbottom width height font top_height bottom_height.
  eexists _, _, _, _, _.
  split; [apply draw_text_on_image_run; exact Hl|].
  split.
  - simpl. rewrite meme_calls_slots.
    rewrite top_calls_set by exact Htop.
    rewrite bottom_calls_set by exact Hbottom. reflexivity.
  - unfold bottom_y. fold width font bottom_height height. lia.
Qed.

Lemma image_copy_run w image im :
  images w !! image = Some im ->
  image_copy image w
  = Some (fresh (dom (images w)),
          {| images := <[fresh (dom (images w)) := im]> (images w);
             drawn := drawn w; page := page w |}).
Proof. intros Hl. unfold image_copy. now rewrite Hl. Qed.

Lemma fresh_is_new w : images w !! fresh (dom (images w)) = None.
Proof. apply not_elem_of_dom. apply is_fresh. Qed.

(** What the call site comes to when a caption is set. *)
Lemma make_meme_run w image im top_text bottom_text :
  images w !! image = Some im ->
  PyStr.truthy top_text || PyStr.truthy bottom_text = true ->
  make_meme image top_text bottom_text w
  = Some (Some (fresh (dom (images w))),
          {| images :=
               <[fresh (dom (images w)) :=
                   render_calls (meme_calls im top_text bottom_text) im]>
                 (images w);
             drawn := drawn w ++ meme_calls im top_text bottom_text;
             page := page w ++ font_messages (fst (im_size im)) |}).
Proof.
  intros Hl Hset. unfold make_meme. rewrite Hset.
  erewrite bind_run by (apply image_copy_run; exact Hl).
  erewrite bind_run
    by (apply (draw_text_on_image_run _ _ im); apply lookup_insert_eq).
  unfold mret, M_ret, ret, after. simpl.
  now rewrite insert_insert_eq.
Qed.

Lemma make_meme_skip w image :
  make_meme image "" "" w = Some (None, w).
Proof. reflexivity. Qed.

(** X5. The page draws a meme exactly when a caption is set: with both
    captions empty nothing is made and nothing changes; otherwise the meme
    is a new object that holds the upload with the captions drawn. *)
Theorem meme_only_with_a_caption
    (w : World) (image : loc) (im : Image) (top_text bottom_text : string) :
  images w !! image = Some im ->
  exists (result : option loc) (w' : World),
    make_meme image top_text bottom_text w = Some (result, w')
    /\ (result = None <-> top_text = "" /\ bottom_text = "")
    /\ (result = None -> w' = w)
    /\ (forall l, result = Some l ->
          images w !! l = None
          /\ images w' !! l
             = Some (render_calls (meme_calls im top_text bottom_text) im)
          /\ dom (images w') = {[ l ]} ∪ dom (images w)).
Proof.
  intros Hl.
  destruct (PyStr.truthy top_text || PyStr.truthy bottom_text) eqn:Hset.
  - eexists _, _. split; [apply make_meme_run; [exact Hl | exact Hset]|].
    split; [|split].
    + split; [discriminate|]. intros [-> ->]. discriminate Hset.
    + discriminate.
    + intros l [= <-]. split; [apply fresh_is_new|].
      simpl. split; [apply lookup_insert_eq | apply dom_insert_L].
  - apply orb_false_iff in Hset as [Ht Hb].
    apply PyStrFacts.truthy_false in Ht, Hb. subst.
    eexists _, _. split; [apply make_meme_skip|].
    split; [tauto|]. split; [reflexivity | discriminate].
Qed.

(** X6. Memes do not build up: when the page renders twice from the same
    upload, the second meme holds the upload with the second captions only,
    it is another object than the first, and the first meme and the upload
    are as the first render left them. *)
Theorem second_meme_starts_from_the_upload
    (w : World) (image : loc) (im : Image)
    (top1 bottom1 top2 bottom2 : string) :
  images w !! image = Some im ->
  PyStr.truthy top1 || PyStr.truthy bottom1 = true ->
  PyStr.truthy top2 || PyStr.truthy bottom2 = true ->
  exists (m1 m2 : loc) (w1 w2 : World),
    make_meme image top1 bottom1 w = Some (Some m1, w1)
    /\ make_meme image top2 bottom2 w1 = Some (Some m2, w2)
    /\ m1 <> m2
    /\ images w2 !! m2 = Some (render_calls (meme_calls im top2 bottom2) im)
    /\ images w2 !! m1 = Some (render_calls (meme_calls im top1 bottom1) im)
    /\ images w2 !! image = Some im.
Proof.
  intros Hl Hset1 Hset2.
  pose proof (make_meme_run w image im top1 bottom1 Hl Hset1) as Hrun1.
  simpl in Hrun1.
  set (m1 := fresh (dom (images w))) in *.
  set (w1 := {| images := _; drawn := _; page := _ |}) in Hrun1.
  assert (Hm1 : images w !! m1 = None) by apply fresh_is_new.
  assert (Hne1 : m1 <> image) by congruence.
  assert (Hl1 : images w1 !! image = Some im).
  { simpl. now rewrite lookup_insert_ne. }
  pose proof (make_meme_run w1 image im top2 bottom2 Hl1 Hset2) as Hrun2.
  simpl in Hrun2.
  set (m2 := fresh (dom (images w1))) in *.
  assert (Hm2 : images w1 !! m2 = None) by apply fresh_is_new.
  assert (Hm11 : images w1 !! m1
                 = Some (render_calls (meme_calls im top1 bottom1) im))
    by apply lookup_insert_eq.
  assert (Hne12 : m2 <> m1) by congruence.
  assert (Hne2 : m2 <> image) by congruence.
  eexists m1, m2, w1, _.
  split; [exact Hrun1|]. split; [exact Hrun2|].
  split; [congruence|]. simpl.
  split; [apply lookup_insert_eq|].
  split.
  - rewrite lookup_insert_ne by exact Hne12. exact Hm11.
  - rewrite lookup_insert_ne by exact Hne2. exact Hl1.
Qed.

End RendererMore.

(** ** Further properties of the caption fetch *)

Module FetchMore.
Import Fetch FetchFacts FetchMessages.

(** The three ways [get_ai_caption] ends. *)
Lemma get_ai_caption_cases post image_bytes api_key :
  (exists caption,
      try_block (post (request image_bytes api_key)) = inr (Returned caption)
      /\ get_ai_caption post image_bytes api_key = (caption, []))
  \/ (try_block (post (request image_bytes api_key)) = inr Malformed
      /\ get_ai_caption post image_bytes api_key
         = ("", [Error malformed_message]))
  \/ (exists e,
      try_block (post (request image_bytes api_key)) = inl e
      /\ get_ai_caption post image_bytes api_key
         = ("", [Error (contact_message e)])).
Proof.
  unfold get_ai_caption.
  destruct (try_block (post (request image_bytes api_key))) as [e|[caption|]].
  - right. right. eauto.
  - left. eauto.
  - right. left. eauto.
Qed.

(** A caption comes out of the try block only for an answer that is not an
    error status and has the expected shape. *)
Lemma try_block_returned answer caption :
  try_block answer = inr (Returned caption) ->
  exists status_code j s,
    answer = Responds status_code (Some j)
    /\ ~ (400 <= status_code < 600)
    /\ expected_text j = Some s
    /\ caption = PyStr.strip s.
Proof.
  intros Hret. destruct answer as [e|sc [j|]].
  - discriminate Hret.
  - assert (Hsc : ~ (400 <= sc < 600)).
    { intros Hsc. unfold try_block in Hret.
      rewrite raise_for_status_error in Hret by exact Hsc.
      discriminate Hret. }
    destruct (expected_text j) as [s|] eqn:Hj.
    + rewrite (try_block_expected sc j s Hsc Hj) in Hret.
      injection Hret as <-. eauto 10.
    + destruct (try_block_unexpected sc j Hj) as [Hm|[e He]];
        rewrite Hret in *; discriminate.
  - unfold try_block in Hret.
    destruct (raise_for_status sc) as [e|[]]; discriminate Hret.
Qed.

(** X7. [get_ai_caption] returns a caption without showing a message
    exactly when the service answered with a status outside 400..599 and a
    JSON body with a string at candidates[0].content.parts[0].text; the
    caption is that string stripped. *)
Theorem caption_without_message_iff
    (post : Request -> exchange) (image_bytes api_key caption : string) :
  get_ai_caption post image_bytes api_key = (caption, [])
  <-> exists status_code j s,
        post (request image_bytes api_key) = Responds status_code (Some j)
        /\ ~ (400 <= status_code < 600)
        /\ expected_text j = Some s
        /\ caption = PyStr.strip s.
Proof.
  split.
  - intros Hres.
    destruct (get_ai_caption_cases post image_bytes api_key)
      as [(c & Htry & Hget)|[[_ Hget]|(e & _ & Hget)]];
      rewrite Hget in Hres; try discriminate Hres.
    injection Hres as ->. now apply try_block_returned.
  - intros (sc & j & s & Hans & Hsc & Hj & ->).
    unfold get_ai_caption. rewrite Hans.
    now rewrite (try_block_expected sc j s Hsc Hj).
Qed.

(** X8. Whatever the service does, [get_ai_caption] shows at most one
    message, an error, and when it shows one the caption it returns is
    empty. *)
Theorem message_means_no_caption
    (post : Request -> exchange) (image_bytes api_key : string) :
  snd (get_ai_caption post image_bytes api_key) = []
  \/ (fst (get_ai_caption post image_bytes api_key) = ""
      /\ exists text,
           snd (get_ai_caption post image_bytes api_key) = [Error text]).
Proof.
  destruct (get_ai_caption_cases post image_bytes api_key)
    as [(c & _ & ->)|[[_ ->]|(e & _ & ->)]]; simpl; eauto.
Qed.

(** X9. Whatever the service does, the caption [get_ai_caption] returns
    is stripped: stripping it again changes nothing, and it neither starts
    nor ends with a white-space character. *)
Theorem returned_caption_is_stripped
    (post : Request -> exchange) (image_bytes api_key : string) :
  let caption := fst (get_ai_caption post image_bytes api_key) in
  PyStr.strip caption = caption
  /\ (forall c, PyStrMore.first_char caption = Some c ->
                PyStr.is_space c = false)
  /\ (forall c, PyStrMore.last_char caption = Some c ->
                PyStr.is_space c = false).
Proof.
  destruct (get_ai_caption_cases post image_bytes api_key)
    as [(c & Htry & ->)|[[_ ->]|(e & _ & ->)]]; simpl;
    try (split; [reflexivity | split; intros c0 Hc; discriminate Hc]).
  apply try_block_returned in Htry as (sc & j & s & _ & _ & _ & ->).
  split; [apply PyStrStrip.strip_idem|].
  split; [apply PyStrStrip.strip_first | apply PyStrStrip.strip_last].
Qed.

(** X10. An answer of the expected shape whose text is white space only
    gives the empty caption, and no message tells the user so. *)
Theorem blank_answer_is_silent
    (post : Request -> exchange) (image_bytes api_key : string)
    (status_code : Z) (j : json) (s : string) :
  post (request image_bytes api_key) = Responds status_code (Some j) ->
  ~ (400 <= status_code < 600) ->
  expected_text j = Some s ->
  PyStr.blank s = true ->
  get_ai_caption post image_bytes api_key = ("", []).
Proof.
  intros Hans Hsc Hj Hblank.
  unfold get_ai_caption. rewrite Hans.
  rewrite (try_block_expected status_code j s Hsc Hj).
  now rewrite PyStrStrip.strip_blank.
Qed.

(** X11. The two error paths of a JSON object answered with a passing
    status: without a [candidates] key the message is the one about a
    malformed response; with the key but without the expected shape under
    it, the message is the one about contacting the AI, for a KeyError, an
    IndexError, a TypeError or an AttributeError. *)
Theorem missing_key_and_wrong_shape
    (post : Request -> exchange) (image_bytes api_key : string)
    (status_code : Z) (fields : list (string * json)) :
  post (request image_bytes api_key)
  = Responds status_code (Some (JObject fields)) ->
  ~ (400 <= status_code < 600) ->
  (assoc "candidates" fields = None ->
   get_ai_caption post image_bytes api_key
   = ("", [Error malformed_message]))
  /\ (is_Some (assoc "candidates" fields) ->
      expected_text (JObject fields) = None ->
      exists e,
        get_ai_caption post image_bytes api_key
        = ("", [Error (contact_message e)])
        /\ (e = KeyError \/ e = IndexError \/ e = TypeError
            \/ e = AttributeError)).
Proof.
  intros Hans Hsc. unfold get_ai_caption. rewrite Hans.
  unfold try_block. rewrite raise_for_status_pass by exact Hsc.
  rewrite bind_inr. simpl. split.
  - intros Hnone. rewrite Hnone. simpl. reflexivity.
  - intros [v Hv] Hshape. rewrite Hv in *. simpl.
    unfold getitem_str, getitem_0, strip_method.
    destruct v; simpl in *; repeat step.
    all: simplify_eq.
    all: first [ exists KeyError; split; [reflexivity | tauto]
            | exists IndexError; split; [reflexivity | tauto]
            | exists TypeError; split; [reflexivity | tauto]
            | exists AttributeError; split; [reflexivity | tauto] ].
Qed.

(** X12. Only the first candidate is read: two object answers whose
    [candidates] lists start with the same item get the same result. *)
Theorem only_first_candidate_is_read
    (status_code : Z) (fields1 fields2 : list (string * json))
    (first : json) (rest1 rest2 : list json) :
  assoc "candidates" fields1 = Some (JArray (first :: rest1)) ->
  assoc "candidates" fields2 = Some (JArray (first :: rest2)) ->
  try_block (Responds status_code (Some (JObject fields1)))
  = try_block (Responds status_code (Some (JObject fields2))).
Proof.
  intros H1 H2. unfold try_block.
  destruct (raise_for_status status_code) as [e|[]]; [reflexivity|].
  rewrite !bind_inr. simpl. rewrite H1, H2. simpl. reflexivity.
Qed.

End FetchMore.

(** ** Properties of the cached fetch and of a run of the page *)

Module PageFacts.
Import Fetch Page.

(** X13. What [@st.cache_data] makes of the fetch: once a call was made
    with some picture and key, every later call with the same two gets the
    caption and the messages of the first, whatever the service would
    answer now (a failed fetch stays failed), and the store is unchanged;
    the entries of other arguments are not touched. *)
Theorem stored_caption_is_not_fetched_again
    (post1 post2 : Request -> exchange) (image_bytes api_key : string)
    (c : cache) :
  cached_get_ai_caption post2 image_bytes api_key
    (snd (cached_get_ai_caption post1 image_bytes api_key c))
  = cached_get_ai_caption post1 image_bytes api_key c
  /\ forall other : string * string,
       other <> (image_bytes, api_key) ->
       snd (cached_get_ai_caption post1 image_bytes api_key c) !! other
       = c !! other.
Proof.
  unfold cached_get_ai_caption, cache in *.
  destruct (c !! (image_bytes, api_key)) as [stored|] eqn:Hc; cbn [snd fst].
  - rewrite Hc. split; [reflexivity|]. reflexivity.
  - rewrite lookup_insert_eq. split; [reflexivity|].
    intros other Hne. now apply lookup_insert_ne.
Qed.

Section ScriptFacts.
Context `{Pillow}.
Variable post : Request -> exchange.
Variable save : string -> Image -> string.

Lemma image_save_run w image im format :
  images w !! image = Some im ->
  image_save save image format w = Some (save format im, w).
Proof. intros Hl. unfold image_save. now rewrite Hl. Qed.

Lemma world_eta (w : World) :
  {| images := images w; drawn := drawn w; page := page w ++ [] |} = w.
Proof. destruct w. simpl. now rewrite app_nil_r. Qed.

(** The left column. *)
Lemma suggest_run ui image im c w :
  images w !! image = Some im ->
  exists notes bottom c' ms,
    suggest post save ui image c w
    = Some ((notes, bottom, c'),
            {| images := images w; drawn := drawn w; page := page w ++ ms |})
    /\ (ui_api_key ui <> "" -> ui_button ui = true ->
        notes = []
        /\ cached_get_ai_caption post (save "JPEG" im) (ui_api_key ui) c
           = ((bottom, ms), c'))
    /\ (ui_api_key ui = "" \/ ui_button ui = false ->
        bottom = ui_bottom_text ui /\ c' = c /\ ms = []).
Proof.
  intros Hl. unfold suggest.
  destruct (PyStr.truthy (ui_api_key ui)) eqn:Hkey.
  - apply PyStrFacts.truthy_true in Hkey.
    destruct (ui_button ui) eqn:Hclick.
    + erewrite bind_run by (apply image_save_run; exact Hl).
      destruct (cached_get_ai_caption post (save "JPEG" im) (ui_api_key ui) c)
        as [[caption ms] c'] eqn:Hfetch.
      exists [], caption, c', ms. split; [reflexivity|].
      split; [intros _ _; split; reflexivity|].
      intros [Hk|Hb]; [contradiction | discriminate].
    + exists [], (ui_bottom_text ui), c, [].
      rewrite world_eta. split; [reflexivity|].
      split; [intros _ Hb; discriminate Hb | intros _; repeat split].
  - apply PyStrFacts.truthy_false in Hkey.
    eexists _, (ui_bottom_text ui), c, [].
    rewrite world_eta. split; [reflexivity|].
    split; [intros Hk; contradiction | intros _; repeat split].
Qed.

(** A run of the page on an upload. *)
Lemma script_run ui image im c w :
  ui_uploaded_file ui = Some image ->
  images w !! image = Some im ->
  exists notes bottom c' ms,
    suggest post save ui image c w
    = Some ((notes, bottom, c'),
            {| images := images w; drawn := drawn w; page := page w ++ ms |})
    /\ script post save ui c w
       = let calls := meme_calls im (ui_top_text ui) bottom in
         let l := fresh (dom (images w)) in
         if PyStr.truthy (ui_top_text ui) || PyStr.truthy bottom then
           Some (({| infos := notes;
                     bottom_text_shown := bottom;
                     meme := Some l;
                     download :=
                       Some {| data := save "PNG" (render_calls calls im);
                               file_name := "meme.png";
                               mime := "image/png" |} |}, c'),
                 {| images := <[l := render_calls calls im]> (images w);
                    drawn := drawn w ++ calls;
                    page := (page w ++ ms)
                              ++ font_messages (fst (im_size im)) |})
         else
           Some (({| infos := notes;
                     bottom_text_shown := bottom;
                     meme := None;
                     download := None |}, c'),
                 {| images := images w; drawn := drawn w;
                    page := page w ++ ms |}).
Proof.
  intros Hup Hl.
  destruct (suggest_run ui image im c w Hl)
    as (notes & bottom & c' & ms & Hsuggest & _).
  exists notes, bottom, c', ms. split; [exact Hsuggest|].
  unfold script. rewrite Hup.
  erewrite bind_run by exact Hsuggest.
  set (w1 := {| images := images w; drawn := drawn w; page := page w ++ ms |}).
  assert (Hl1 : images w1 !! image = Some im) by exact Hl.
  cbv beta iota zeta.
  destruct (PyStr.truthy (ui_top_text ui) || PyStr.truthy bottom) eqn:Hset.
  - pose proof (make_meme_run w1 image im (ui_top_text ui) bottom Hl1 Hset)
      as Hmeme.
    rewrite (bind_run _ _ _ _ _ Hmeme).
    erewrite bind_run by (apply image_save_run; apply lookup_insert_eq).
    reflexivity.
  - apply orb_false_iff in Hset as [Ht Hb].
    apply PyStrFacts.truthy_false in Ht, Hb. rewrite Ht, Hb.
    erewrite bind_run by apply make_meme_skip.
    reflexivity.
Qed.

Lemma suggest_idle post' ui image c w :
  ui_api_key ui = "" \/ ui_button ui = false ->
  exists notes,
    suggest post save ui image c w
    = Some ((notes, ui_bottom_text ui, c), w)
    /\ suggest post' save ui image c w
       = Some ((notes, ui_bottom_text ui, c), w).
Proof.
  intros Hidle. unfold suggest.
  destruct (PyStr.truthy (ui_api_key ui)) eqn:Hkey.
  - apply PyStrFacts.truthy_true in Hkey.
    destruct Hidle as [Hk|Hb]; [contradiction|]. rewrite Hb.
    eexists. split; reflexivity.
  - eexists. split; reflexivity.
Qed.

(** X14. The service is contacted only in a run that has an upload, a key
    and the click on the button: in any other run the page is the same
    whatever the service would answer, and the store of the cached calls
    is left as it was. *)
Theorem no_fetch_without_upload_key_and_click
    (post' : Request -> exchange) (ui : Widgets) (c : cache) (w : World) :
  ui_uploaded_file ui = None \/ ui_api_key ui = "" \/ ui_button ui = false ->
  script post save ui c w = script post' save ui c w
  /\ forall shown c' w',
       script post save ui c w = Some ((shown, c'), w') -> c' = c.
Proof.
  intros Hidle. unfold script.
  destruct (ui_uploaded_file ui) as [image|] eqn:Hup.
  - destruct Hidle as [Hnone|Hidle]; [discriminate Hnone|].
    destruct (suggest_idle post' ui image c w Hidle) as (notes & Hs & Hs').
    rewrite !(bind_run _ _ _ _ _ Hs), !(bind_run _ _ _ _ _ Hs').
    split; [reflexivity|].
    cbv beta iota zeta. intros shown c' w'.
    unfold mbind, M_bind, bind.
    destruct (make_meme image (ui_top_text ui) (ui_bottom_text ui) w)
      as [[[l|] w1]|]; [| |discriminate].
    + destruct (image_save save l "PNG" w1) as [[bytes w2]|];
        [|discriminate].
      intros [= _ <- _]. reflexivity.
    + intros [= _ <- _]. reflexivity.
  - split; [reflexivity|]. intros shown c' w' [= _ <- _]. reflexivity.
Qed.

(** X15. In a run with an upload, a key and the click, the bottom field
    is left with the caption of the (cached) fetch on the JPEG bytes of the
    upload: the meme is drawn with it, there is none exactly when it and
    the top text are both empty, and the text held for the bottom field
    before the click plays no part. *)
Theorem suggestion_replaces_the_bottom_text
    (ui : Widgets) (image : loc) (im : Image) (c : cache) (w : World)
    (typed : string) :
  ui_uploaded_file ui = Some image ->
  images w !! image = Some im ->
  ui_api_key ui <> "" ->
  ui_button ui = true ->
  let fetched :=
    cached_get_ai_caption post (save "JPEG" im) (ui_api_key ui) c in
  let caption := fst (fst fetched) in
  exists (shown : Shown) (w' : World),
    script post save ui c w = Some ((shown, snd fetched), w')
    /\ bottom_text_shown shown = caption
    /\ (meme shown = None <-> ui_top_text ui = "" /\ caption = "")
    /\ (forall l, meme shown = Some l ->
          images w' !! l
          = Some (render_calls (meme_calls im (ui_top_text ui) caption) im))
    /\ script post save
         {| ui_api_key := ui_api_key ui;
            ui_uploaded_file := ui_uploaded_file ui;
            ui_button := ui_button ui;
            ui_top_text := ui_top_text ui;
            ui_bottom_text := typed |} c w
       = script post save ui c w.
Proof.
  intros Hup Hl Hkey Hclick fetched caption.
  destruct (suggest_run ui image im c w Hl)
    as (notes & bottom & c' & ms & Hsuggest & Hfetch & _).
  destruct (Hfetch Hkey Hclick) as [-> Hcached].
  destruct (script_run ui image im c w Hup Hl)
    as (notes2 & bottom2 & c2 & ms2 & Hsuggest2 & Hscript).
  rewrite Hsuggest in Hsuggest2. injection Hsuggest2 as <- <- <- Hms.
  assert (Hcap : caption = bottom).
  { unfold caption, fetched. now rewrite Hcached. }
  assert (Hsnd : snd fetched = c').
  { unfold fetched. now rewrite Hcached. }
  rewrite Hsnd, Hcap. cbv zeta in Hscript.
  assert (Hsame : script post save
            {| ui_api_key := ui_api_key ui;
               ui_uploaded_file := ui_uploaded_file ui;
               ui_button := ui_button ui;
               ui_top_text := ui_top_text ui;
               ui_bottom_text := typed |} c w
          = script post save ui c w).
  { unfold script, suggest. simpl. rewrite Hup, Hclick.
    destruct (PyStr.truthy (ui_api_key ui)) eqn:Hk; [reflexivity|].
    apply PyStrFacts.truthy_false in Hk. contradiction. }
  destruct (PyStr.truthy (ui_top_text ui) || PyStr.truthy bottom) eqn:Hset.
  - eexists _, _. split; [exact Hscript|]. simpl.
    split; [reflexivity|]. split; [|split; [|exact Hsame]].
    + split; [discriminate|]. intros [Ht Hb]. rewrite Ht, Hb in Hset.
      discriminate Hset.
    + intros l [= <-]. apply lookup_insert_eq.
  - eexists _, _. split; [exact Hscript|]. simpl.
    split; [reflexivity|]. split; [|split; [|exact Hsame]].
    + apply orb_false_iff in Hset as [Ht Hb].
      apply PyStrFacts.truthy_false in Ht, Hb. tauto.
    + discriminate.
Qed.

(** X16. A fetch that fails wipes the bottom text: in a run with an
    upload, a key and the click, when the call is not in the store and
    [get_ai_caption] ends on an error, the error is shown, the bottom field
    is left empty whatever it held, the failure is stored, and with no top
    text no meme is made and no download offered. *)
Theorem failed_fetch_clears_the_bottom_text
    (ui : Widgets) (image : loc) (im : Image) (c : cache) (w : World)
    (text : string) :
  ui_uploaded_file ui = Some image ->
  images w !! image = Some im ->
  ui_api_key ui <> "" ->
  ui_button ui = true ->
  c !! (save "JPEG" im, ui_api_key ui) = None ->
  get_ai_caption post (save "JPEG" im) (ui_api_key ui) = ("", [Error text]) ->
  ui_top_text ui = "" ->
  script post save ui c w
  = Some (({| infos := [];
              bottom_text_shown := "";
              meme := None;
              download := None |},
           <[(save "JPEG" im, ui_api_key ui) := ("", [Error text])]> c),
          {| images := images w; drawn := drawn w;
             page := page w ++ [Error text] |}).
Proof.
  intros Hup Hl Hkey Hclick Hmiss Hfail Htop.
  destruct (suggest_run ui image im c w Hl)
    as (notes & bottom & c' & ms & Hsuggest & Hfetch & _).
  destruct (Hfetch Hkey Hclick) as [-> Hcached].
  unfold cached_get_ai_caption in Hcached. rewrite Hmiss, Hfail in Hcached.
  injection Hcached as <- <- <-.
  destruct (script_run ui image im c w Hup Hl)
    as (notes2 & bottom2 & c2 & ms2 & Hsuggest2 & Hscript).
  rewrite Hsuggest in Hsuggest2. injection Hsuggest2 as <- <- <- Hms.
  apply app_inv_head in Hms. subst ms2.
  rewrite Hscript, Htop. reflexivity.
Qed.

(** X17. A download is offered exactly when a meme is shown; it is the
    PNG encoding of the meme, named meme.png with type image/png; the meme
    has the dimensions of the upload, and the upload is as it was. *)
Theorem download_is_the_meme_as_png
    (ui : Widgets) (image : loc) (im : Image) (c : cache) (w : World) :
  ui_uploaded_file ui = Some image ->
  images w !! image = Some im ->
  exists (shown : Shown) (c' : cache) (w' : World),
    script post save ui c w = Some ((shown, c'), w')
    /\ (download shown = None <-> meme shown = None)
    /\ images w' !! image = Some im
    /\ forall l, meme shown = Some l ->
         exists im',
           images w' !! l = Some im'
           /\ im_size im' = im_size im
           /\ download shown
              = Some {| data := save "PNG" im';
                        file_name := "meme.png";
                        mime := "image/png" |}.
Proof.
  intros Hup Hl.
  destruct (script_run ui image im c w Hup Hl)
    as (notes & bottom & c' & ms & _ & Hscript).
  cbv zeta in Hscript.
  destruct (PyStr.truthy (ui_top_text ui) || PyStr.truthy bottom).
  - eexists _, _, _. split; [exact Hscript|]. simpl.
    split; [split; discriminate|].
    assert (Hne : fresh (dom (images w)) <> image).
    { intros Heq. pose proof (fresh_is_new w) as Hnew.
      rewrite Heq in Hnew. congruence. }
    split; [now rewrite lookup_insert_ne|].
    intros l [= <-]. eexists. split; [apply lookup_insert_eq|].
    split; [apply render_calls_size | reflexivity].
  - eexists _, _, _. split; [exact Hscript|]. simpl.
    split; [tauto|]. split; [exact Hl|]. discriminate.
Qed.

End ScriptFacts.

End PageFacts.

(** ** The further properties on the concrete hosts *)

Section OnTheStudio.
Import Studio.

(** X1 on the host with Impact: a picture 100 wide gets size 10. *)
Lemma installed_font_is_used_witness :
  images Studio.world !! Studio.uploaded = Some Studio.picture
  /\ truetype "impact.ttf" (int_truediv 100 10) = Some (Studio.impact 10)
  /\ exists w' : World,
       draw_text_on_image Studio.uploaded "hi" "bye" Studio.world
       = Some (Studio.uploaded, w')
       /\ page w' = []
       /\ map tc_font (drawn w') = repeat (Studio.impact 10) 10.
Proof.
  split; [reflexivity|]. split; [reflexivity|].
  destruct (installed_font_is_used Studio.world Studio.uploaded
              Studio.picture "hi" "bye" (Studio.impact 10) eq_refl eq_refl)
    as (w' & Hrun & Hpage & Hdrawn & _).
  exists w'. split; [exact Hrun|]. split; [exact Hpage|].
  rewrite Hdrawn. reflexivity.
Defined.

End OnTheStudio.

Section MoreOnTheHost.
Import Host.

(** X2 on the host without Impact: "HELLO!" is 36 wide on a picture 24
    wide; it is drawn whole, filled from x = (24 - 36) / 2. *)
Lemma wide_caption_is_drawn_whole_witness :
  images Host.world !! Host.uploaded = Some Host.picture
  /\ "hello!" <> ""
  /\ 24 < text_width Host.builtin "HELLO!"
  /\ exists (w' : World) (c : TextCall),
       draw_text_on_image Host.uploaded "hello!" "" Host.world
       = Some (Host.uploaded, w')
       /\ drawn w' = outline_calls Host.builtin "HELLO!" (tc_x c) 10
       /\ tc_x c = truediv (24 - 36) 2
       /\ (tc_x c < 0)%Q.
Proof.
  split; [reflexivity|]. split; [discriminate|]. split; [reflexivity|].
  destruct (wide_caption_is_drawn_whole Host.world Host.uploaded
              Host.picture "hello!" "" eq_refl)
    as (w' & Hrun & Hdrawn & Htop & _).
  destruct Htop as (c & Hcalls & _ & Hx & Hneg & _);
    [discriminate | reflexivity |].
  exists w', c. split; [exact Hrun|].
  split; [rewrite Hdrawn, Hcalls; reflexivity|].
  split; [exact Hx | exact Hneg].
Defined.

(** X4 on the host without Impact: two captions 11 high on a picture 32
    high overlap, 11 + 11 + 20 being more than 32. *)
Lemma captions_apart_on_high_images_witness :
  images Host.world !! Host.uploaded = Some Host.picture
  /\ "hi" <> "" /\ "bye" <> ""
  /\ exists (w' : World) (y1 y2 : Z),
       draw_text_on_image Host.uploaded "hi" "bye" Host.world
       = Some (Host.uploaded, w')
       /\ (y1 + 11 <= y2 <-> 11 + 11 + 20 <= 32).
Proof.
  split; [reflexivity|]. split; [discriminate|]. split; [discriminate|].
  destruct (captions_apart_on_high_images Host.world Host.uploaded
              Host.picture "hi" "bye" eq_refl)
    as (w' & x1 & x2 & y1 & y2 & Hrun & _ & Hapart);
    [discriminate | discriminate |].
  exists w', y1, y2. split; [exact Hrun | exact Hapart].
Defined.

(** X5 on the host: with the caption "hi" the meme is the object 2. *)
Lemma meme_only_with_a_caption_witness :
  images Host.world !! Host.uploaded = Some Host.picture
  /\ exists (result : option loc) (w' : World),
       make_meme Host.uploaded "hi" "" Host.world = Some (result, w')
       /\ (result = None <-> "hi" = "" /\ "" = "").
Proof.
  split; [reflexivity|].
  destruct (meme_only_with_a_caption Host.world Host.uploaded Host.picture
              "hi" "" eq_refl)
    as (result & w' & Hrun & Hnone & _).
  exists result, w'. split; [exact Hrun | exact Hnone].
Defined.

(** X6 on the host: a meme with "one", then a meme with "two". *)
Lemma second_meme_starts_from_the_upload_witness :
  images Host.world !! Host.uploaded = Some Host.picture
  /\ PyStr.truthy "one" || PyStr.truthy "" = true
  /\ PyStr.truthy "" || PyStr.truthy "two" = true
  /\ exists (m1 m2 : loc) (w1 w2 : World),
       make_meme Host.uploaded "one" "" Host.world = Some (Some m1, w1)
       /\ make_meme Host.uploaded "" "two" w1 = Some (Some m2, w2)
       /\ m1 <> m2
       /\ images w2 !! Host.uploaded = Some Host.picture.
Proof.
  split; [reflexivity|]. split; [reflexivity|]. split; [reflexivity|].
  destruct (second_meme_starts_from_the_upload Host.world Host.uploaded
              Host.picture "one" "" "" "two" eq_refl eq_refl eq_refl)
    as (m1 & m2 & w1 & w2 & Hrun1 & Hrun2 & Hne & _ & _ & Hkeep).
  exists m1, m2, w1, w2. repeat split; assumption.
Defined.

End MoreOnTheHost.

Section MoreOnTheWire.
Import Host Fetch FetchFacts FetchMessages FetchMore Page PageFacts.

(** X10 on a service that answers two spaces. *)
Lemma blank_answer_is_silent_witness :
  blank_answer (request "" "key")
  = Responds 200 (Some (JObject [("candidates",
      JArray [JObject [("content",
        JObject [("parts",
          JArray [JObject [("text", JString "  ")]])])]])]))
  /\ ~ (400 <= 200 < 600)
  /\ PyStr.blank "  " = true
  /\ get_ai_caption blank_answer "" "key" = ("", []).
Proof.
  split; [reflexivity|]. split; [lia|]. split; [reflexivity|].
  eapply blank_answer_is_silent with (status_code := 200) (s := "  ");
    [reflexivity | lia | reflexivity | reflexivity].
Defined.

(** X11 on a service that answers without candidates, and on one that
    answers an empty list of them. *)
Lemma missing_key_and_wrong_shape_witness :
  ~ (400 <= 200 < 600)
  /\ get_ai_caption no_candidates "" "key" = ("", [Error malformed_message])
  /\ exists e,
       get_ai_caption empty_candidates "" "key"
       = ("", [Error (contact_message e)]).
Proof.
  split; [lia|]. split.
  - apply (missing_key_and_wrong_shape no_candidates "" "key" 200
             [("error", JString "quota")]); [reflexivity | lia | reflexivity].
  - destruct (missing_key_and_wrong_shape empty_candidates "" "key" 200
                [("candidates", JArray [])] eq_refl) as [_ Hshape]; [lia|].
    destruct Hshape as (e & He & _); [eexists; reflexivity | reflexivity |].
    exists e. exact He.
Defined.

(** X12 on two answers that differ after the first candidate. *)
Lemma only_first_candidate_is_read_witness :
  assoc "candidates" [("candidates", JArray [JString "a"; JNull])]
  = Some (JArray [JString "a"; JNull])
  /\ try_block (Responds 200
        (Some (JObject [("candidates", JArray [JString "a"; JNull])])))
     = try_block (Responds 200
        (Some (JObject [("candidates", JArray [JString "a"])]))).
Proof.
  split; [reflexivity|].
  apply (only_first_candidate_is_read 200 _ _ (JString "a") [JNull] []);
    reflexivity.
Defined.

(** X14 on the run without a key. *)
Lemma no_fetch_without_upload_key_and_click_witness :
  ui_api_key idle = ""
  /\ script multiple_choices toy_save idle ∅ Host.world
     = script service_unavailable toy_save idle ∅ Host.world.
Proof.
  split; [reflexivity|].
  apply (no_fetch_without_upload_key_and_click
           multiple_choices toy_save service_unavailable idle ∅ Host.world).
  right. left. reflexivity.
Defined.

(** X15 on the run of the click: the caption of the service takes the
    place of "old text". *)
Lemma suggestion_replaces_the_bottom_text_witness :
  ui_uploaded_file clicked = Some Host.uploaded
  /\ images Host.world !! Host.uploaded = Some Host.picture
  /\ ui_api_key clicked <> ""
  /\ ui_button clicked = true
  /\ exists (shown : Shown) (c' : cache) (w' : World),
       script multiple_choices toy_save clicked ∅ Host.world
       = Some ((shown, c'), w')
       /\ bottom_text_shown shown = "When the build passes".
Proof.
  split; [reflexivity|]. split; [reflexivity|].
  split; [discriminate|]. split; [reflexivity|].
  destruct (suggestion_replaces_the_bottom_text multiple_choices toy_save
              clicked Host.uploaded Host.picture ∅ Host.world ""
              eq_refl eq_refl)
    as (shown & w' & Hrun & Hbottom & _); [discriminate | reflexivity |].
  eexists shown, _, w'. split; [exact Hrun | exact Hbottom].
Defined.

(** X16 on the run of the click against a service that answers 503. *)
Lemma failed_fetch_clears_the_bottom_text_witness :
  ui_uploaded_file clicked = Some Host.uploaded
  /\ images Host.world !! Host.uploaded = Some Host.picture
  /\ ui_api_key clicked <> ""
  /\ ui_button clicked = true
  /\ ui_top_text clicked = ""
  /\ exists (c' : cache) (w' : World),
       script service_unavailable toy_save clicked ∅ Host.world
       = Some (({| infos := []; bottom_text_shown := "";
                   meme := None; download := None |}, c'), w').
Proof.
  split; [reflexivity|]. split; [reflexivity|].
  split; [discriminate|]. split; [reflexivity|]. split; [reflexivity|].
  eexists _, _.
  apply (failed_fetch_clears_the_bottom_text service_unavailable toy_save
           clicked Host.uploaded Host.picture ∅ Host.world
           (contact_message (HTTPError 503)));
    [reflexivity | reflexivity | discriminate | reflexivity | reflexivity
    | reflexivity | reflexivity].
Defined.

(** X17 on the run without a key: the meme with "hi" and its download. *)
Lemma download_is_the_meme_as_png_witness :
  ui_uploaded_file idle = Some Host.uploaded
  /\ images Host.world !! Host.uploaded = Some Host.picture
  /\ exists (shown : Shown) (c' : cache) (w' : World),
       script multiple_choices toy_save idle ∅ Host.world
       = Some ((shown, c'), w')
       /\ (download shown = None <-> meme shown = None)
       /\ images w' !! Host.uploaded = Some Host.picture.
Proof.
  split; [reflexivity|]. split; [reflexivity|].
  destruct (download_is_the_meme_as_png multiple_choices toy_save idle
              Host.uploaded Host.picture ∅ Host.world eq_refl eq_refl)
    as (shown & c' & w' & Hrun & Hiff & Hkeep & _).
  exists shown, c', w'. repeat split; try assumption; apply Hiff.
Defined.

End MoreOnTheWire.
